(** * linex: webhook ingestion, context decoding, dispatch and rate limiting

    A shallow embedding of the event pipeline of the linex LINE-bot SDK
    ([linex/rate_limiting.py], [linex/http.py], [linex/application.py],
    [linex/processing.py], [linex/models/context.py]) together with the
    properties of that pipeline.

    Conventions of the embedding.
    - Python values that come out of [json] parsing are values of [json];
      Python's [None] is [JNull].
    - Python floats (clock readings, durations) are idealised as exact
      rationals ([Q]); integers are [Z].
    - An exception is a value of [exn]; code that can raise returns a
      [Res], and code that also mutates shared objects passes the mutated
      store explicitly.
    - A coroutine is cut at its [await]s where another task can observe the
      store in between; loops that wait on other tasks take fuel. *)

From Stdlib Require Import ZArith QArith Lqa Lia List Ascii String Bool.
From stdpp Require Import gmap strings list fin_maps.

Open Scope string_scope.
Open Scope list_scope.

(** ** Python helpers on rationals *)

(** Truth value of a Python number: zero is falsy. *)
Definition num_truthy (q : Q) : bool := negb (Qeq_bool q 0).

(** [a < b] on floats. *)
Definition Qltb (a b : Q) : bool := negb (Qle_bool b a).

(** [asyncio.sleep d] suspends the caller for [d] seconds; a delay that is
    not positive only yields to the event loop. *)
Definition sleep_time (d : Q) : Q := if Qle_bool d 0 then 0%Q else d.

(** ** Python values, exceptions and results *)

(** A value as [json.loads] builds it.  [JNull] is [None]; a dict keeps its
    items in order. *)
#[warnings="-register-all"] Inductive json :=
| JNull
| JBool (b : bool)
| JNum (q : Q)
| JStr (s : string)
| JList (l : list json)
| JDict (d : list (string * json)).

(** The exceptions that the code raises or lets through. *)
Inductive exn :=
| KeyError (key : json)
| TypeError (msg : string)
| AttributeError (msg : string)
| IndexError (msg : string)
| UnboundLocalError (var : string)
| RecursionError
| CannotReply (msg : string)          (* linex/exceptions.py *)
| TimeoutError (msg : string)         (* asyncio.TimeoutError *)
| TransportError (msg : string)       (* raised by the HTTP client *)
| OverflowError (msg : string).

Inductive Res (A : Type) :=
| Ok (a : A)
| Raise (e : exn).
Arguments Ok {A} a.
Arguments Raise {A} e.

Definition bind {A B} (r : Res A) (k : A -> Res B) : Res B :=
  match r with
  | Ok a => k a
  | Raise e => Raise e
  end.

Notation "x <- r ;; k" := (bind r (fun x => k))
  (at level 100, r at next level, right associativity).

(** A result that is a raised [CannotReply], whatever its message. *)
Definition raises_CannotReply {A} (r : Res A) : Prop :=
  exists msg, r = Raise (CannotReply msg).

(** [bool(v)]. *)
Definition truthy (v : json) : bool :=
  match v with
  | JNull => false
  | JBool b => b
  | JNum q => num_truthy q
  | JStr s => negb (String.eqb s "")
  | JList l => match l with [] => false | _ => true end
  | JDict d => match d with [] => false | _ => true end
  end.

(** [v == s] for a string literal [s]. *)
Definition eq_str (v : json) (s : string) : bool :=
  match v with
  | JStr t => String.eqb t s
  | _ => false
  end.

Fixpoint assoc (k : string) (d : list (string * json)) : option json :=
  match d with
  | [] => None
  | (k', v) :: d' => if String.eqb k' k then Some v else assoc k d'
  end.

(** [v[k]] for a string key [k]. *)
Definition getitem (v : json) (k : string) : Res json :=
  match v with
  | JDict d =>
      match assoc k d with
      | Some x => Ok x
      | None => Raise (KeyError (JStr k))
      end
  | JStr _ => Raise (TypeError "string indices must be integers")
  | JList _ => Raise (TypeError "list indices must be integers or slices")
  | _ => Raise (TypeError "object is not subscriptable")
  end.

(** [v.get(k, default)]. *)
Definition get (v : json) (k : string) (default : json) : Res json :=
  match v with
  | JDict d =>
      match assoc k d with
      | Some x => Ok x
      | None => Ok default
      end
  | _ => Raise (AttributeError "object has no attribute 'get'")
  end.

(** The least magnitude of an [int] [n] for which [n / 1000] leaves the
    range of a float: the quotient, rounded to the nearest float, would
    be [2^1024] or beyond. *)
Definition int_div1000_overflow : Z := 1000 * (2 ^ 1024 - 2 ^ 970).

(** [v / 1000]: defined on numbers, and on booleans, which are integers.
    A number is an [int] when its denominator is one; the division of an
    [int] raises [OverflowError] when the result is too large for a
    float. *)
Definition div1000 (v : json) : Res Q :=
  match v with
  | JNum q =>
      if (Qden q =? 1)%positive && (int_div1000_overflow <=? Z.abs (Qnum q))%Z then
        Raise (OverflowError "integer division result too large for a float")
      else Ok (q / 1000)%Q
  | JBool b => Ok ((if b then 1 else 0) / 1000)%Q
  | _ => Raise (TypeError "unsupported operand type(s) for /")
  end.

(** Whether a value can be the key of a dict. *)
Definition hashable (v : json) : bool :=
  match v with
  | JList _ | JDict _ => false
  | _ => true
  end.

(** [d[k] = v] on the items of a dict. *)
Fixpoint dict_set (k : string) (v : json) (d : list (string * json))
  : list (string * json) :=
  match d with
  | [] => [(k, v)]
  | (k', v') :: d' =>
      if String.eqb k' k then (k', v) :: d' else (k', v') :: dict_set k v d'
  end.

(** ** linex/models/context.py *)

Module Context.

(** The slots that [BaseContext.__init__] fills from the event.  The HTTP
    client handle and the headers are passed through untouched and are left
    out, as are the memo attributes of [author()] and [group()]. *)
Record BaseContext := mkBase {
  event_type : json;
  _event_id : json;
  _is_redelivery : json;
  _timestamp : Q;
  _source : json;
  _reply_token : json;
  _mode : json;
  ping : Q
}.

(** The attributes that each subclass adds in its [__init__]; one
    constructor per class. *)
Inductive Attrs :=
| TextMessageContext (_text _id _emojis _mentions : json)
| ImageMessageContext (_id _contentProvider _imageSet : json)
| VideoMessageContext (_id _contentProvider _duration : json)
| AudioMessageContext (_id _contentProvider _duration : json)
| FileMessageContext (fn fs _id : json)
| LocationMessageContext (_id _title _address _lat _lon : json)
| StickerMessageContext (_id _pi _si _rT _kw _text : json)
| UnsendContext (_id : json)
| FollowContext
| UnfollowContext
| JoinContext
| LeaveContext
| MemberJoinContext (_members : json)
| MemberLeaveContext (_members : json)
| PostbackContext (_pb : json)
| VideoViewingCompleteContext (_tracking : json)
| BeaconContext (_beacon : json)
| AccountLinkContext (_link : json)
| DeviceLinkContext (_things : json)
| DeviceUnlinkContext (_things : json)
| LINEThingsScenarioExecutionContext (_things _result : json).

(** A context object.  [replied] is the flag of [RepliableContext]; it is
    [False] on the class and set on the instance by [reply]. *)
Record Context := mkContext {
  base : BaseContext;
  replied : bool;
  attrs : Attrs
}.

(** The classes that derive from [RepliableContext]. *)
Definition is_repliable (a : Attrs) : bool :=
  match a with
  | UnsendContext _ | UnfollowContext | LeaveContext | MemberLeaveContext _ => false
  | _ => true
  end.

(** [BaseContext.__init__]; [now] is the reading of [time.time()]. *)
Definition BaseContext_init (data : json) (now : Q) : Res BaseContext :=
  ty <- getitem data "type" ;;
  eid <- getitem data "webhookEventId" ;;
  dc <- getitem data "deliveryContext" ;;
  red <- getitem dc "isRedelivery" ;;
  ts0 <- getitem data "timestamp" ;;
  ts <- div1000 ts0 ;;
  src <- getitem data "source" ;;
  tok <- get data "replyToken" JNull ;;
  mode <- getitem data "mode" ;;
  Ok (mkBase ty eid red ts src tok mode (now - ts)).

Definition with_base (data : json) (now : Q) (k : json -> Res Attrs) : Res Context :=
  b <- BaseContext_init data now ;;
  a <- k data ;;
  Ok (mkContext b false a).

Definition TextMessageContext_init (data : json) (now : Q) : Res Context :=
  with_base data now (fun data =>
    msg <- getitem data "message" ;;
    text <- getitem msg "text" ;;
    id <- getitem msg "id" ;;
    emojis <- get msg "emojis" (JList []) ;;
    mention <- get msg "mention" (JDict []) ;;
    mentions <- get mention "mentionees" (JList []) ;;
    Ok (TextMessageContext text id emojis mentions)).

Definition ImageMessageContext_init (data : json) (now : Q) : Res Context :=
  with_base data now (fun data =>
    msg <- getitem data "message" ;;
    id <- getitem msg "id" ;;
    cp <- getitem msg "contentProvider" ;;
    iset <- get msg "imageSet" JNull ;;
    Ok (ImageMessageContext id cp iset)).

Definition VideoMessageContext_init (data : json) (now : Q) : Res Context :=
  with_base data now (fun data =>
    msg <- getitem data "message" ;;
    id <- getitem msg "id" ;;
    cp <- getitem msg "contentProvider" ;;
    dur <- get msg "duration" JNull ;;
    Ok (VideoMessageContext id cp dur)).

(** [AudioMessageContext] inherits the constructor of the video class. *)
Definition AudioMessageContext_init (data : json) (now : Q) : Res Context :=
  with_base data now (fun data =>
    msg <- getitem data "message" ;;
    id <- getitem msg "id" ;;
    cp <- getitem msg "contentProvider" ;;
    dur <- get msg "duration" JNull ;;
    Ok (AudioMessageContext id cp dur)).

Definition FileMessageContext_init (data : json) (now : Q) : Res Context :=
  with_base data now (fun data =>
    msg <- getitem data "message" ;;
    name <- getitem msg "fileName" ;;
    size <- getitem msg "fileSize" ;;
    id <- getitem msg "id" ;;
    Ok (FileMessageContext name size id)).

Definition LocationMessageContext_init (data : json) (now : Q) : Res Context :=
  with_base data now (fun data =>
    msg <- getitem data "message" ;;
    id <- getitem msg "id" ;;
    title <- get msg "title" JNull ;;
    address <- get msg "address" JNull ;;
    lat <- getitem msg "latitude" ;;
    lon <- getitem msg "longitude" ;;
    Ok (LocationMessageContext id title address lat lon)).

Definition StickerMessageContext_init (data : json) (now : Q) : Res Context :=
  with_base data now (fun data =>
    msg <- getitem data "message" ;;
    id <- getitem msg "id" ;;
    pi <- getitem msg "packageId" ;;
    si <- getitem msg "stickerId" ;;
    rT <- getitem msg "stickerResourceType" ;;
    kw <- get msg "keywords" JNull ;;
    text <- get msg "text" JNull ;;
    Ok (StickerMessageContext id pi si rT kw text)).

Definition UnsendContext_init (data : json) (now : Q) : Res Context :=
  with_base data now (fun data =>
    u <- getitem data "unsend" ;;
    id <- getitem u "messageId" ;;
    Ok (UnsendContext id)).

Definition FollowContext_init (data : json) (now : Q) : Res Context :=
  with_base data now (fun _ => Ok FollowContext).

Definition UnfollowContext_init (data : json) (now : Q) : Res Context :=
  with_base data now (fun _ => Ok UnfollowContext).

Definition JoinContext_init (data : json) (now : Q) : Res Context :=
  with_base data now (fun _ => Ok JoinContext).

Definition LeaveContext_init (data : json) (now : Q) : Res Context :=
  with_base data now (fun _ => Ok LeaveContext).

Definition MemberJoinContext_init (data : json) (now : Q) : Res Context :=
  with_base data now (fun data =>
    j <- getitem data "joined" ;;
    members <- getitem j "members" ;;
    Ok (MemberJoinContext members)).

Definition MemberLeaveContext_init (data : json) (now : Q) : Res Context :=
  with_base data now (fun data =>
    j <- getitem data "joined" ;;
    members <- getitem j "members" ;;
    Ok (MemberLeaveContext members)).

Definition PostbackContext_init (data : json) (now : Q) : Res Context :=
  with_base data now (fun data =>
    pb <- getitem data "postback" ;;
    Ok (PostbackContext pb)).

Definition VideoViewingCompleteContext_init (data : json) (now : Q) : Res Context :=
  with_base data now (fun data =>
    v <- getitem data "videoPlayComplete" ;;
    tracking <- getitem v "trackingId" ;;
    Ok (VideoViewingCompleteContext tracking)).

Definition BeaconContext_init (data : json) (now : Q) : Res Context :=
  with_base data now (fun data =>
    b <- getitem data "beacon" ;;
    Ok (BeaconContext b)).

Definition AccountLinkContext_init (data : json) (now : Q) : Res Context :=
  with_base data now (fun data =>
    l <- getitem data "link" ;;
    Ok (AccountLinkContext l)).

Definition DeviceLinkContext_init (data : json) (now : Q) : Res Context :=
  with_base data now (fun data =>
    t <- getitem data "things" ;;
    Ok (DeviceLinkContext t)).

Definition DeviceUnlinkContext_init (data : json) (now : Q) : Res Context :=
  with_base data now (fun data =>
    t <- getitem data "things" ;;
    Ok (DeviceUnlinkContext t)).

Definition LINEThingsScenarioExecutionContext_init (data : json) (now : Q)
  : Res Context :=
  with_base data now (fun data =>
    t <- getitem data "things" ;;
    r <- getitem t "result" ;;
    Ok (LINEThingsScenarioExecutionContext t r)).

(** *** Properties of the classes *)

Definition no_attribute {A} (name : string) : Res A :=
  Raise (AttributeError name).

(** The [id] property, resolved on the class of the object. *)
Definition ctx_id (self : Context) : Res json :=
  match attrs self with
  | TextMessageContext _ i _ _ => Ok i
  | ImageMessageContext i _ _ => Ok i
  | VideoMessageContext i _ _ => Ok i
  | AudioMessageContext i _ _ => Ok i
  | FileMessageContext _ _ i => Ok i
  | LocationMessageContext i _ _ _ _ => Ok i
  | StickerMessageContext i _ _ _ _ _ => Ok i
  | UnsendContext i => Ok i
  | DeviceLinkContext t => getitem t "deviceId"
  | DeviceUnlinkContext t => getitem t "deviceId"
  | LINEThingsScenarioExecutionContext t _ => getitem t "deviceId"
  | _ => no_attribute "id"
  end.

Definition TextMessageContext_text (self : Context) : Res json :=
  match attrs self with
  | TextMessageContext t _ _ _ => Ok t
  | _ => no_attribute "text"
  end.

Definition LocationMessageContext_title (self : Context) : Res json :=
  match attrs self with
  | LocationMessageContext _ t _ _ _ => Ok t
  | _ => no_attribute "title"
  end.

Definition LocationMessageContext_latitude (self : Context) : Res json :=
  match attrs self with
  | LocationMessageContext _ _ _ lat _ => Ok lat
  | _ => no_attribute "latitude"
  end.

Definition StickerMessageContext_package_id (self : Context) : Res json :=
  match attrs self with
  | StickerMessageContext _ p _ _ _ _ => Ok p
  | _ => no_attribute "package_id"
  end.

Definition StickerMessageContext_keywords (self : Context) : Res json :=
  match attrs self with
  | StickerMessageContext _ _ _ _ kw _ => Ok kw
  | _ => no_attribute "keywords"
  end.

(** [StickerMessageContext.text].  Its body is [return self.text]: the
    property reads itself, not the slot [_text].  [depth] is the number of
    frames left under the interpreter's recursion limit. *)
Fixpoint StickerMessageContext_text (depth : nat) (self : Context) : Res json :=
  match depth with
  | O => Raise RecursionError
  | S depth' => StickerMessageContext_text depth' self
  end.

Definition MemberJoinContext_members (self : Context) : Res json :=
  match attrs self with
  | MemberJoinContext m => Ok m
  | _ => no_attribute "members"
  end.

Definition MemberLeaveContext_members (self : Context) : Res json :=
  match attrs self with
  | MemberLeaveContext m => Ok m
  | _ => no_attribute "members"
  end.

Definition PostbackContext_data (self : Context) : Res json :=
  match attrs self with
  | PostbackContext pb => getitem pb "data"
  | _ => no_attribute "data"
  end.

Definition PostbackContext_datetime (self : Context) : Res json :=
  match attrs self with
  | PostbackContext pb => params <- getitem pb "params" ;; get params "datetime" JNull
  | _ => no_attribute "datetime"
  end.

Definition BeaconContext_hwid (self : Context) : Res json :=
  match attrs self with
  | BeaconContext b => getitem b "hwid"
  | _ => no_attribute "hwid"
  end.

(** *** Replying *)

(** What a handler may pass to [reply]: a string, a dict, or an object
    with a [to_json] method, given by what that method does. *)
Inductive Message :=
| MsgStr (s : string)
| MsgDict (d : list (string * json))
| MsgObj (to_json : Res json).

(** linex/models/sender.py *)
Record Sender := mkSender {
  name : json;
  icon_url : json
}.

Definition Sender_to_json (s : Sender) : json :=
  JDict [("name", name s); ("iconUrl", icon_url s)].

(** linex/models/quick_reply.py: a button holds the dict built by its
    constructor. *)
Record QuickReplyButton := mkQuickReplyButton {
  qr_json : json
}.

Definition QuickReplyButton_to_json (b : QuickReplyButton) : json := qr_json b.

(** The body that linex/http.py [reply] posts. *)
Record ReplyRequest := mkReplyRequest {
  replyToken : json;
  messages : list json;
  notificationDisabled : bool
}.

(** [l[-1] |= {k: v}]. *)
Fixpoint update_last (k : string) (v : json) (l : list json) : Res (list json) :=
  match l with
  | [] => Raise (IndexError "list index out of range")
  | [x] =>
      match x with
      | JDict d => Ok [JDict (dict_set k v d)]
      | _ => Raise (TypeError "unsupported operand type(s) for |=")
      end
  | x :: l' => rest <- update_last k v l' ;; Ok (x :: rest)
  end.

Fixpoint mapM {A B} (f : A -> Res B) (l : list A) : Res (list B) :=
  match l with
  | [] => Ok []
  | x :: l' => y <- f x ;; ys <- mapM f l' ;; Ok (y :: ys)
  end.

Section Reply.

(** [Emoji.emoji_text_to_emojis] (linex/models/emoji.py): a rewriting of
    the text by a regular expression, total on strings. It returns the
    rewritten text and the emoji entries found. *)
Variable emoji_text_to_emojis : string -> string * list json.

(** How the linex/http.py [reply] call ends for a given body: the decoded
    response, or the exception of the HTTP client. *)
Variable post : ReplyRequest -> Res json.

Definition to_valid_message (message : Message) : Res json :=
  match message with
  | MsgStr s =>
      let '(text, emojis) := emoji_text_to_emojis s in
      Ok (JDict [("type", JStr "text");
                 ("text", JStr text);
                 ("emojis", match emojis with [] => JNull | _ => JList emojis end)])
  | MsgDict d => Ok (JDict d)
  | MsgObj to_json => to_json
  end.

(** [RepliableContext._to_valid_message_objects]; [now] is its own reading
    of the clock. *)
Definition _to_valid_message_objects (self : Context) (now : Q)
    (msgs : list Message) : Res (list json) :=
  if Qltb (60 * 20) (now - _timestamp (base self)) then
    Raise (CannotReply "Cannnot reply to this message: 20mins had passed.")
  else
    mapM to_valid_message msgs.

(** The two in-place merges into the last message: the quick replies when
    the list is not empty, then the sender when there is one. *)
Definition decorate (valid : list json) (sender : option Sender)
    (quick_replies : list QuickReplyButton) : Res (list json) :=
  valid <- match quick_replies with
           | [] => Ok valid
           | _ => update_last "quickReply"
                    (JDict [("items", JList (map QuickReplyButton_to_json quick_replies))])
                    valid
           end ;;
  match sender with
  | None => Ok valid
  | Some s => update_last "sender" (Sender_to_json s) valid
  end.

(** [RepliableContext.reply].  [now1] is the clock reading of [reply]
    itself and [now2] the later one of [_to_valid_message_objects].  The
    result is how the call ends, the object as the call leaves it, and the
    bodies handed to the HTTP client. *)
Definition reply (self : Context) (now1 now2 : Q) (msgs : list Message)
    (sender : option Sender) (quick_replies : list QuickReplyButton)
    (notification_disabled : bool)
  : Res unit * Context * list ReplyRequest :=
  if negb (is_repliable (attrs self)) then
    (no_attribute "reply", self, [])
  else if negb (truthy (_reply_token (base self))) then
    (Raise (TypeError "Reply error was not provided, check `ctx.state`."), self, [])
  else if Qltb (60 * 20) (now1 - _timestamp (base self)) then
    (Raise (CannotReply "It's been more than 20 minutes since the event occurred; you cannot reply to this interaction anymore."), self, [])
  else if replied self then
    (Raise (CannotReply "This interaction has already been replied."), self, [])
  else
    match
      (valid <- _to_valid_message_objects self now2 msgs ;;
       decorate valid sender quick_replies)
    with
    | Raise e => (Raise e, self, [])
    | Ok valid =>
        let self' := mkContext (base self) true (attrs self) in
        let req := mkReplyRequest (_reply_token (base self)) valid notification_disabled in
        match post req with
        | Ok _ => (Ok tt, self', [req])
        | Raise e => (Raise e, self', [req])
        end
    end.

End Reply.

End Context.

(** ** linex/rate_limiting.py *)

Module RateLimiting.

(** The dict [RateLimit.status].  It is an attribute of the class, and
    [__slots__] leaves an instance only [calls] and [per]: every instance
    reads and writes this one dict. *)
Record Status := mkStatus {
  first_call : Q;      (* status['first_call'] *)
  s_calls : Z;         (* status['calls'] *)
  wait_end : Q         (* status['wait_end'] *)
}.

(** An instance: the two slots set by [__init__]. *)
Record RateLimit := mkRateLimit {
  calls : Z;
  per : Q
}.

(** The class attribute as it is when the module is imported. *)
Definition status0 : Status := mkStatus 0 0 0.

(** The presets. *)
Definition stats_and_broadcast : RateLimit := mkRateLimit 60 (60 * 60).
Definition audience_and_ads : RateLimit := mkRateLimit 60 60.
Definition webhook_endpoint : RateLimit := mkRateLimit 1000 60.
Definition rich_menu : RateLimit := mkRateLimit 100 (60 * 60).
Definition replace_unlink_rich_menu : RateLimit := mkRateLimit 3 (60 * 60).
Definition other : RateLimit := mkRateLimit 2000 1.

(** What one activation of [call] does before it first suspends. *)
Inductive CallStep :=
| Returned (st : Status)                 (* ran to a return without awaiting *)
| SleepRetry (d : Q) (st : Status)       (* [await asyncio.sleep(d)], then [self.call()] *)
| SleepReset (d : Q) (st : Status).      (* [await asyncio.sleep(d)], then the three resets *)

(** [call], from its entry with clock reading [now] to its first [await]. *)
Definition call_begin (self : RateLimit) (now : Q) (st : Status) : CallStep :=
  if num_truthy (wait_end st) then
    SleepRetry (now - wait_end st) st
  else if negb (num_truthy (first_call st)) then
    Returned (mkStatus now (s_calls st + 1) (wait_end st))
  else
    let st1 := mkStatus (first_call st) (s_calls st + 1) (wait_end st) in
    if (calls self <? s_calls st1)%Z && Qltb (now - first_call st1) (per self) then
      SleepReset (per self + 0.1)
                 (mkStatus (first_call st1) (s_calls st1) (now + per self + 0.1))
    else
      Returned st1.

(** The three assignments that follow the long sleep. *)
Definition call_reset (st : Status) : Status := mkStatus 0 0 0.

(** A whole [call] of a task that runs alone: nothing else touches the
    status while it sleeps, and the clock advances by the time slept.
    The result is the status left behind and the time spent suspended;
    [None] when the retries outlast the fuel. *)
Fixpoint call (fuel : nat) (self : RateLimit) (now : Q) (st : Status)
  : option (Status * Q) :=
  match call_begin self now st with
  | Returned st' => Some (st', 0%Q)
  | SleepReset d st' => Some (call_reset st', sleep_time d)
  | SleepRetry d st' =>
      match fuel with
      | O => None
      | S fuel' =>
          match call fuel' self (now + sleep_time d) st' with
          | Some (st'', s) => Some (st'', (sleep_time d + s)%Q)
          | None => None
          end
      end
  end.

(** A sequence of requests, each given with the limiter it goes through and
    the clock reading at which it is issued; the suspensions are collected
    in order. *)
Fixpoint run_calls (fuel : nat) (reqs : list (RateLimit * Q)) (st : Status)
  : option (list Q * Status) :=
  match reqs with
  | [] => Some ([], st)
  | (rl, now) :: rest =>
      match call fuel rl now st with
      | None => None
      | Some (st', s) =>
          match run_calls fuel rest st' with
          | None => None
          | Some (ss, st'') => Some (s :: ss, st'')
          end
      end
  end.

(** Requests that all go through the same limiter. *)
Definition on_bucket (rl : RateLimit) (times : list Q) : list (RateLimit * Q) :=
  map (fun t => (rl, t)) times.

(** [n] clock readings one second apart, starting at [t0]. *)
Definition seconds_from (t0 : Q) (n : nat) : list Q :=
  map (fun k => (t0 + inject_Z (Z.of_nat k))%Q) (seq 0 n).

End RateLimiting.

(** ** linex/http.py: the limiters of the outbound calls *)

Module Http.
Import RateLimiting.

Definition rr_botInfo : RateLimit := other.
Definition rr_getMemberCount : RateLimit := other.
Definition rr_getGroupChat : RateLimit := other.
Definition rr_getUser : RateLimit := other.
Definition rr_setWebhookEndpoint : RateLimit := webhook_endpoint.
Definition rr_getWebhook : RateLimit := webhook_endpoint.
Definition rr_testWebhook : RateLimit := stats_and_broadcast.

End Http.

(** ** linex/application.py: the client, its registry and its waiters *)

Module Application.
Import Context.

(** A registered handler: the name it is known by and how its coroutine
    ends on a context ([None]: it returns).  The handlers of the
    embedding are coroutines that leave the client alone: they register
    nothing, wait for nothing, dispatch nothing and do not write to the
    cache or to the context. *)
Record Handler := mkHandler {
  h_name : string;
  h_body : Context -> option exn
}.

(** What the run leaves behind for an observer. *)
Inductive Effect :=
| Invoked (handler : string) (ctx : Context)   (* [await handler(ctx)] was started *)
| LogVerified (basic_id : json)                (* the hint logged for an empty batch *)
| LogRoutingFail                               (* [logger.routing.fail] *)
| LogRoutingOk (n_events : nat)                (* [logger.routing.ok] *)
| LogPayload (payload : json).                 (* [logger.print(payload)] of a dev client *)

(** Modelled from the spec: the module linex/cache.py, which defines
    [MESSAGES], is not among the sources.  The spec gives the cache
    mapping semantics (unique key, a write overwrites, nothing expires),
    so it is a dict here: its writes, most recent first. *)
Definition Cache : Type := list (json * Context).

(** The state that the pipeline reads and writes: the class attributes
    [Client.handlers] and [Client.pending], the flag [ignore_standby] of
    the client, the cache [MESSAGES], the calls of the logger, oldest
    first, and the slots [headers] and [user] of the client.  An entry of
    [handlers] that is [None] is an object that is falsy.  [headers] is
    set by [run] and [user] by [lifespan]; [None] is a slot that is not
    set, and the [BotUser] in [user] is given by its [basic_id]. *)
Record World := mkWorld {
  handlers : gmap string (list (option Handler));
  pending : gmap string (gmap string (option Context));
  ignore_standby : bool;
  MESSAGES : Cache;
  log : list Effect;
  headers : option json;
  user : option json
}.

(** The channel names that the class body lists. *)
Definition channel_names : list string :=
  ["ready"; "text"; "image"; "audio"; "file"; "location"; "sticker"; "video";
   "unsend"; "follow"; "unfollow"; "join"; "leave"; "member_join";
   "member_leave"; "postback"; "video_complete"; "beacon"; "account_link";
   "device_link"; "device_unlink"; "scenario_result"].

Definition handlers0 : gmap string (list (option Handler)) :=
  list_to_map (map (fun n => (n, [])) channel_names).

Definition pending0 : gmap string (gmap string (option Context)) :=
  list_to_map (map (fun n => (n, ∅)) channel_names).

(** A client that has just been constructed. *)
Definition world0 (ignore_standby : bool) : World :=
  mkWorld handlers0 pending0 ignore_standby [] [] None None.

(** Computations on the world that may raise. *)
Definition M (A : Type) : Type := World -> Res A * World.

Definition ret {A} (a : A) : M A := fun w => (Ok a, w).
Definition raise {A} (e : exn) : M A := fun w => (Raise e, w).
Definition lift {A} (r : Res A) : M A := fun w => (r, w).

Definition mbind {A B} (m : M A) (k : A -> M B) : M B :=
  fun w =>
    match m w with
    | (Ok a, w') => k a w'
    | (Raise e, w') => (Raise e, w')
    end.

Notation "x <~ m ;; k" := (mbind m (fun x => k))
  (at level 100, m at next level, right associativity).

(** A computation that leaves the registry and the standby flag alone. *)
Definition keeps {A} (m : M A) : Prop :=
  forall w,
    ignore_standby (snd (m w)) = ignore_standby w
    /\ handlers (snd (m w)) = handlers w.

(** The world after further calls of the logger. *)
Definition logged (es : list Effect) (w : World) : World :=
  mkWorld (handlers w) (pending w) (ignore_standby w) (MESSAGES w) (log w ++ es)
          (headers w) (user w).

Definition emit_effect (e : Effect) : M unit :=
  fun w => (Ok tt, logged [e] w).

(** Reading the slots [headers] and [user]. *)
Definition no_attribute_of_client (slot : string) : exn :=
  AttributeError ("'Client' object has no attribute '" ++ slot ++ "'").

Definition get_headers : M json :=
  fun w =>
    match headers w with
    | Some h => (Ok h, w)
    | None => (Raise (no_attribute_of_client "headers"), w)
    end.

Definition get_user_basic_id : M json :=
  fun w =>
    match user w with
    | Some b => (Ok b, w)
    | None => (Raise (no_attribute_of_client "user"), w)
    end.

(** [Client.listen(name)(handler)], and [Client.event(handler)] for a
    handler named [on_<name>]. *)
Definition listen (name : string) (handler : Handler) (w : World) : World :=
  mkWorld (<[name := default [] (handlers w !! name) ++ [Some handler]]> (handlers w))
          (pending w) (ignore_standby w) (MESSAGES w) (log w) (headers w) (user w).

(** The loop of [Client.emit] over the handlers of a channel. *)
Fixpoint run_handlers (hs : list (option Handler)) (ctx : Context) : M unit :=
  match hs with
  | [] => ret tt
  | None :: hs' => run_handlers hs' ctx
  | Some h :: hs' =>
      _ <~ emit_effect (Invoked (h_name h) ctx) ;;
      match h_body h ctx with
      | Some e => raise e
      | None => run_handlers hs' ctx
      end
  end.

(** [Client.emit(name, ctx)]. *)
Definition emit (name : string) (ctx : Context) : M unit :=
  fun w =>
    match handlers w !! name with
    | None => (Raise (KeyError (JStr name)), w)
    | Some hs => run_handlers hs ctx w
    end.

(** *** [Client.wait_for] *)

Abbreviation Pending := (gmap string (gmap string (option Context))).

(** [pending[name][_id]]. *)
Definition slot (p : Pending) (name _id : string) : Res (option Context) :=
  match p !! name with
  | None => Raise (KeyError (JStr name))
  | Some m =>
      match m !! _id with
      | None => Raise (KeyError (JStr _id))
      | Some v => Ok v
      end
  end.

(** [del pending[name][_id]]. *)
Definition del_slot (p : Pending) (name _id : string) : Res Pending :=
  match p !! name with
  | None => Raise (KeyError (JStr name))
  | Some m =>
      match m !! _id with
      | None => Raise (KeyError (JStr _id))
      | Some _ => Ok (<[name := delete _id m]> p)
      end
  end.

(** [timeout and elapsed >= timeout], on the exact sum of the hundredths
    that [elapsed] collects. *)
Definition timed_out (timeout : option Z) (elapsed : Q) : bool :=
  match timeout with
  | None => false
  | Some t => negb (t =? 0)%Z && Qle_bool (inject_Z t) elapsed
  end.

Definition timeout_message (name : string) : string :=
  "Timeout while waiting for '" ++ name ++ "' event.".

Section WaitFor.

(** The caller's predicate and timeout. *)
Variable check : Context -> bool.
Variable timeout : option Z.
(** The channel and the identifier drawn by [uuid.uuid4()]. *)
Variables name _id : string.
(** What the other tasks do to [pending] while this one is in its [i]-th
    [await asyncio.sleep(0.01)]. *)
Variable others : nat -> Pending -> Pending.

(** The [while not result] loop, entered with [result] still [None]; one
    unit of fuel per pass.  [i] counts the sleeps so far, [elapsed] is the
    local of that name.  [None]: the fuel ran out inside the loop. *)
Fixpoint wait_for_loop (fuel : nat) (i : nat) (elapsed : Q) (p : Pending)
  : option (Res Context * Pending) :=
  match fuel with
  | O => None
  | S fuel' =>
      match slot p name _id with
      | Raise e => Some (Raise e, p)
      | Ok (Some _pre_result) =>
          if negb (check _pre_result) then
            (* continue *)
            wait_for_loop fuel' i elapsed p
          else
            (* result = _pre_result; sleep; the test of the timeout; then
               the loop ends and the entry is deleted *)
            let p' := others i p in
            let elapsed' := (elapsed + 0.01)%Q in
            if timed_out timeout elapsed' then
              Some (Raise (TimeoutError (timeout_message name)), p')
            else
              match del_slot p' name _id with
              | Raise e => Some (Raise e, p')
              | Ok p'' => Some (Ok _pre_result, p'')
              end
      | Ok None =>
          let p' := others i p in
          let elapsed' := (elapsed + 0.01)%Q in
          if timed_out timeout elapsed' then
            Some (Raise (TimeoutError (timeout_message name)), p')
          else
            wait_for_loop fuel' (S i) elapsed' p'
      end
  end.

(** [Client.wait_for(name, check=check, timeout=timeout)]. *)
Definition wait_for (fuel : nat) (p : Pending) : option (Res Context * Pending) :=
  match p !! name with
  | None => Some (Raise (KeyError (JStr name)), p)
  | Some m => wait_for_loop fuel 0 0 (<[name := <[_id := None]> m]> p)
  end.

End WaitFor.

(** What [fulfill_pendings] of linex/processing.py does to [pending] on a
    channel that exists: every slot of the channel receives the context. *)
Definition fulfilled (name : string) (context : Context) (p : Pending) : Pending :=
  match p !! name with
  | None => p
  | Some m => <[name := (fun _ => Some context) <$> m]> p
  end.

(** The other tasks when a single event of the channel is dispatched, and
    that during the [k]-th sleep of the waiter. *)
Definition dispatch_during (k : nat) (name : string) (c : Context)
  : nat -> Pending -> Pending :=
  fun i q => if Nat.eqb i k then fulfilled name c q else q.

(** The local [elapsed] after [n] sleeps. *)
Definition elapsed_after (n : nat) : Q :=
  Nat.iter n (fun e => (e + 0.01)%Q) 0%Q.

(** The timeout does not strike at the [n]-th test: there is none, or it
    is zero, or more than [n] hundredths of a second long. *)
Definition before_deadline (timeout : option Z) (n : nat) : Prop :=
  match timeout with
  | None => True
  | Some t => t = 0%Z \/ (Z.of_nat n < 100 * t)%Z
  end.

(** The world after a list of registrations, the first of the list
    first. *)
Definition listen_all (hs : list (string * Handler)) (w : World) : World :=
  fold_left (fun w nh => listen (fst nh) (snd nh) w) hs w.

(** The handlers that a list of registrations puts under a name, in the
    order of the registrations. *)
Definition registered (name : string) (hs : list (string * Handler)) : list Handler :=
  map snd (List.filter (fun nh => String.eqb (fst nh) name) hs).

(** The log entries of a run of handlers on a context. *)
Definition invoked (hs : list Handler) (ctx : Context) : list Effect :=
  map (fun h => Invoked (h_name h) ctx) hs.

(** A computation that neither registers a handler, nor flips the standby
    flag, nor creates or removes a channel or a slot of the pending map. *)
Definition frames {A} (m : M A) : Prop :=
  forall w,
    handlers (snd (m w)) = handlers w
    /\ ignore_standby (snd (m w)) = ignore_standby w
    /\ forall name, dom <$> (pending (snd (m w)) !! name) = dom <$> (pending w !! name).

(** A client on which no handler is registered: its events go to waiters
    only. *)
Definition no_handlers (w : World) : Prop :=
  forall name hs, handlers w !! name = Some hs -> hs = [].

(** The same as [frames], on the clients on which no handler is
    registered. *)
Definition frames_without_handlers {A} (m : M A) : Prop :=
  forall w,
    no_handlers w ->
    handlers (snd (m w)) = handlers w
    /\ ignore_standby (snd (m w)) = ignore_standby w
    /\ forall name, dom <$> (pending (snd (m w)) !! name) = dom <$> (pending w !! name).

(** *** The cache of the client *)

(** How a lookup in a cache ends: the object, or the exception [Unknown]
    of linex/exceptions.py. *)
Inductive Lookup :=
| Found (c : Context)
| RaiseUnknown (msg : string).

(** [MESSAGES.get(message_id)] for a string: the most recent write under
    that key. *)
Fixpoint cache_get (message_id : string) (writes : Cache)
  : option Context :=
  match writes with
  | [] => None
  | (k, c) :: rest =>
      if eq_str k message_id then Some c else cache_get message_id rest
  end.

(** [Client.get_message]. *)
Definition get_message (message_id : string) (w : World) : Lookup :=
  match cache_get message_id (MESSAGES w) with
  | Some c => Found c
  | None => RaiseUnknown ("Unknown message with ID " ++ message_id ++ ".")
  end.

(** [Client.clear_cache], on the message cache. *)
Definition clear_cache (w : World) : World :=
  mkWorld (handlers w) (pending w) (ignore_standby w) [] (log w) (headers w) (user w).

End Application.

(** ** linex/processing.py *)

Module Processing.
Import Context Application.

(** [add_to_cache]: [MESSAGES[context.id] = context]. *)
Definition add_to_cache (context : Context) : M unit :=
  fun w =>
    match ctx_id context with
    | Raise e => (Raise e, w)
    | Ok i =>
        if hashable i then
          (Ok tt, mkWorld (handlers w) (pending w) (ignore_standby w)
                          ((i, context) :: MESSAGES w) (log w) (headers w) (user w))
        else (Raise (TypeError "unhashable type"), w)
    end.

(** The closure [fulfill_pendings] of [process]. *)
Definition fulfill_pendings (name : string) (context : Context) : M unit :=
  fun w =>
    match pending w !! name with
    | None => (Raise (KeyError (JStr name)), w)
    | Some _ =>
        (Ok tt, mkWorld (handlers w) (fulfilled name context (pending w))
                        (ignore_standby w) (MESSAGES w) (log w) (headers w) (user w))
    end.

(** The dict [finder] of the message branch, indexed by [_type]. *)
Definition finder (_type : json) : Res (string * (json -> Q -> Res Context)) :=
  match _type with
  | JStr s =>
      if String.eqb s "text" then Ok (s, TextMessageContext_init)
      else if String.eqb s "image" then Ok (s, ImageMessageContext_init)
      else if String.eqb s "video" then Ok (s, VideoMessageContext_init)
      else if String.eqb s "audio" then Ok (s, AudioMessageContext_init)
      else if String.eqb s "file" then Ok (s, FileMessageContext_init)
      else if String.eqb s "location" then Ok (s, LocationMessageContext_init)
      else if String.eqb s "sticker" then Ok (s, StickerMessageContext_init)
      else Raise (KeyError _type)
  | JList _ | JDict _ => Raise (TypeError "unhashable type")
  | _ => Raise (KeyError _type)
  end.

(** The dict of the [things] branch, indexed by [event['things']['type']]. *)
Definition things_finder (_type : json) : Res (string * (json -> Q -> Res Context)) :=
  match _type with
  | JStr s =>
      if String.eqb s "link" then Ok ("device_link", DeviceLinkContext_init)
      else if String.eqb s "unlink" then Ok ("device_unlink", DeviceUnlinkContext_init)
      else if String.eqb s "scenarioResult" then
        Ok ("scenario_result", LINEThingsScenarioExecutionContext_init)
      else Raise (KeyError _type)
  | JList _ | JDict _ => Raise (TypeError "unhashable type")
  | _ => Raise (KeyError _type)
  end.

Section Process.

(** Python's [repr], used in the message of the error. *)
Variable repr : json -> string.

Definition unknown_event_type (ty : json) : exn :=
  TypeError ("Unknown event type: " ++ repr ty).

(** The chain of tests on [event['type']]: the channel name and the value
    of the local [context] after the branch.  [context] is the value that
    the local has on entry: unbound ([None]) in the first pass, and
    otherwise what an earlier pass left in it.  The branches of
    [videoPlayComplete], [beacon] and [accountLink] build their object
    without assigning it. *)
Definition classify (event : json) (now : Q) (context : option Context)
  : M (string * option Context) :=
  ty <~ lift (getitem event "type") ;;
  let assigned (name : string) (init : json -> Q -> Res Context) :=
    (c <~ lift (init event now) ;; ret (name, Some c)) in
  let discarded (name : string) (init : json -> Q -> Res Context) :=
    (_ <~ lift (init event now) ;; ret (name, context)) in
  if eq_str ty "message" then
    msg <~ lift (getitem event "message") ;;
    _type <~ lift (getitem msg "type") ;;
    found <~ lift (finder _type) ;;
    c <~ lift (snd found event now) ;;
    _ <~ add_to_cache c ;;
    ret (fst found, Some c)
  else if eq_str ty "unsend" then assigned "unsend" UnsendContext_init
  else if eq_str ty "follow" then assigned "follow" FollowContext_init
  else if eq_str ty "unfollow" then assigned "unfollow" UnfollowContext_init
  else if eq_str ty "join" then assigned "join" JoinContext_init
  else if eq_str ty "leave" then assigned "leave" LeaveContext_init
  else if eq_str ty "memberJoined" then assigned "member_join" MemberJoinContext_init
  else if eq_str ty "memberLeft" then assigned "member_leave" MemberLeaveContext_init
  else if eq_str ty "postback" then assigned "postback" PostbackContext_init
  else if eq_str ty "videoPlayComplete" then
    discarded "video_complete" VideoViewingCompleteContext_init
  else if eq_str ty "beacon" then discarded "beacon" BeaconContext_init
  else if eq_str ty "accountLink" then discarded "account_link" AccountLinkContext_init
  else if eq_str ty "things" then
    things <~ lift (getitem event "things") ;;
    _type <~ lift (getitem things "type") ;;
    found <~ lift (things_finder _type) ;;
    c <~ lift (snd found event now) ;;
    ret (fst found, Some c)
  else raise (unknown_event_type ty).

(** One pass of the [for event in events] loop.  The result is the value
    of the local [context] at the end of the pass. *)
Definition process_event (event : json) (now : Q) (context : option Context)
  : M (option Context) :=
  mode <~ lift (getitem event "mode") ;;
  skip <~ (fun w => (Ok (eq_str mode "standby" && ignore_standby w), w)) ;;
  if (skip : bool) then ret context
  else
    r <~ classify event now context ;;
    c <~ match snd r with
         | None => raise (UnboundLocalError "context")
         | Some c => ret c
         end ;;
    _ <~ fulfill_pendings (fst r) c ;;
    _ <~ emit (fst r) c ;;
    ret (snd r).

(** The loop; [clock i] is the reading of [time.time()] taken while the
    [i]-th event of the batch is decoded.  The result is the value of the
    local [context] when the loop ends. *)
Fixpoint process_events (clock : nat -> Q) (i : nat) (events : list json)
    (context : option Context) : M (option Context) :=
  match events with
  | [] => ret context
  | event :: rest =>
      context' <~ process_event event (clock i) context ;;
      process_events clock (S i) rest context'
  end.

(** [process(cls, payload, client, headers)].  On events that are falsy
    it reads [cls.user.basic_id] for the link of the hint that it logs. *)
Definition process (payload : json) (clock : nat -> Q) : M unit :=
  events <~ lift (getitem payload "events") ;;
  if negb (truthy events) then
    basic_id <~ get_user_basic_id ;;
    emit_effect (LogVerified basic_id)
  else
    match events with
    | JList es => _ <~ process_events clock 0 es None ;; ret tt
    | JStr _ => raise (TypeError "string indices must be integers")
    | JDict _ => raise (TypeError "string indices must be integers")
    | _ => raise (TypeError "object is not iterable")
    end.

(** The values of [event['type']] that the chain of tests lists, and the
    keys of its two dicts. *)
Definition top_level_types : list string :=
  ["message"; "unsend"; "follow"; "unfollow"; "join"; "leave"; "memberJoined";
   "memberLeft"; "postback"; "videoPlayComplete"; "beacon"; "accountLink"; "things"].

Definition known_type (ty : json) : bool := existsb (eq_str ty) top_level_types.

Definition message_types : list string :=
  ["text"; "image"; "video"; "audio"; "file"; "location"; "sticker"].

Definition things_types : list string := ["link"; "unlink"; "scenarioResult"].

(** The exception that an event meets when one of its discriminators is
    a value that [process] does not list: the top-level [type], or the
    string under [message.type] or [things.type].  [None] for the other
    events. *)
Definition unknown_discriminator (event : json) : option exn :=
  match getitem event "type" with
  | Ok ty =>
      let nested (key : string) (types : list string) :=
        match getitem event key with
        | Ok inner =>
            match getitem inner "type" with
            | Ok (JStr s) =>
                if existsb (String.eqb s) types then None else Some (KeyError (JStr s))
            | _ => None
            end
        | Raise _ => None
        end in
      if eq_str ty "message" then nested "message" message_types
      else if eq_str ty "things" then nested "things" things_types
      else if known_type ty then None
      else Some (unknown_event_type ty)
  | Raise _ => None
  end.

End Process.

End Processing.

(** ** linex/application.py: the webhook route *)

Module Webhook.
Import Context Application Processing.

Definition bytes : Type := list Byte.byte.

(** What the route reads of a request: the raw body and the value of the
    [X-Line-Signature] header when there is one. *)
Record Request := mkRequest {
  body : bytes;
  x_line_signature : option string
}.

Record Response := mkResponse {
  status_code : Z;
  content : json
}.

(** [len(v)]. *)
Definition len (v : json) : Res nat :=
  match v with
  | JList l => Ok (length l)
  | JDict d => Ok (length d)
  | JStr s => Ok (String.length s)
  | _ => Raise (TypeError "object has no len()")
  end.

Section Route.

(** The library functions of the route: [hmac.new(key, msg,
    hashlib.sha256).digest()], [base64.b64encode], [str.encode('utf-8')],
    the constant-time comparison [hmac.compare_digest] on two [bytes]
    objects, and the JSON decoder behind [request.json()]. *)
Variable hmac_sha256 : bytes -> bytes -> bytes.
Variable b64encode : bytes -> bytes.
Variable encode_utf8 : string -> bytes.
Variable compare_digest : bytes -> bytes -> bool.
Variable json_loads : bytes -> Res json.
Variable repr : json -> string.

(** The argument [dev] of the client that the route closes over. *)
Variable dev : bool.

Definition valid_signature (channel_secret : string) (body : bytes) : bytes :=
  b64encode (hmac_sha256 (encode_utf8 channel_secret) body).

Definition line_signature (request : Request) : bytes :=
  encode_utf8 (default "" (x_line_signature request)).

Definition invalid_webhook : Response :=
  mkResponse 400 (JDict [("message", JStr "invalid webhook")]).

Definition happy_birthday : Response :=
  mkResponse 200 (JDict [("message", JStr "happy birthday")]).

(** The world after the one log line of a rejected request. *)
Definition rejected (w : World) : World := logged [LogRoutingFail] w.

(** The part of the route that follows the signature test. *)
Definition accepted (request : Request) (clock : nat -> Q) : M Response :=
  payload <~ lift (json_loads (body request)) ;;
  events <~ lift (getitem payload "events") ;;
  n_events <~ lift (len events) ;;
  _ <~ emit_effect (LogRoutingOk n_events) ;;
  _ <~ (if dev then emit_effect (LogPayload payload) else ret tt) ;;
  _ <~ get_headers ;;
  _ <~ process repr payload clock ;;
  ret happy_birthday.

(** The handler of [POST /]. *)
Definition webhook (channel_secret : string) (request : Request)
    (clock : nat -> Q) : M Response :=
  if negb (compare_digest (line_signature request)
                          (valid_signature channel_secret (body request))) then
    _ <~ emit_effect LogRoutingFail ;;
    ret invalid_webhook
  else
    accepted request clock.

End Route.

(** The calls of the logger between the signature test and the call of
    [process]. *)
Definition routing_lines (dev : bool) (n_events : nat) (payload : json) : list Effect :=
  LogRoutingOk n_events :: (if dev then [LogPayload payload] else []).

End Webhook.

(** ** linex/models/emoji.py, linex/models/mention.py and the text
    properties of linex/models/context.py *)

Module TextModels.
Import Context.

(** [for x in v]: the items that the loop goes through. *)
Definition iterate (v : json) : Res (list json) :=
  match v with
  | JList l => Ok l
  | JDict d => Ok (map (fun kv => JStr (fst kv)) d)
  | JStr s => Ok (map (fun c => JStr (String c "")) (list_ascii_of_string s))
  | _ => Raise (TypeError "object is not iterable")
  end.

(** A value used as an integer: an [int], or a [bool].  A number is taken
    to be an [int] when its denominator is one. *)
Definition as_int (v : json) : option Z :=
  match v with
  | JNum q => if (Qden q =? 1)%positive then Some (Qnum q) else None
  | JBool b => Some (if b then 1 else 0)%Z
  | _ => None
  end.

(** Where a slice bound [i] falls in a sequence of length [len]. *)
Definition slice_bound (len : nat) (i : Z) : nat :=
  if (i <? 0)%Z then Z.to_nat (Z.max 0 (i + Z.of_nat len))
  else Nat.min (Z.to_nat i) len.

(** [s[:i]] and [s[i:]]. *)
Definition slice_to (s : string) (i : Z) : string :=
  substring 0 (slice_bound (String.length s) i) s.

Definition slice_from (s : string) (i : Z) : string :=
  let b := slice_bound (String.length s) i in
  substring b (String.length s - b) s.

(** [s[a:b]] for two positions of a match. *)
Definition slice (s : string) (a b : nat) : string :=
  slice_to (slice_from s (Z.of_nat a)) (Z.of_nat (b - a)).

(** An [Emoji] object. *)
Record Emoji := mkEmoji {
  product_id : json;
  emoji_id : json;
  format : string
}.

(** A [Mention] object; [user_id] is [None] while the slot is unset. *)
Record Mention := mkMention {
  mention_type : json;
  user_id : option json
}.

(** What [Mention] is given as [user]: a value (a dict, a string,
    [None], ...) or a [User] or [BotUser] object, given by its [id]. *)
Inductive MentionUser :=
| UValue (v : json)
| UObject (id : json).

Definition user_truthy (u : MentionUser) : bool :=
  match u with
  | UValue v => truthy v
  | UObject _ => true
  end.

(** [Mention.__init__]. *)
Definition Mention_init (type : json) (user : MentionUser) : Res Mention :=
  if eq_str type "all" && user_truthy user then
    Raise (TypeError "When `type` is set to `all`, `user` should remain None.")
  else if eq_str type "user" && negb (user_truthy user) then
    Raise (TypeError "Keyword-only argument `user` was not given.")
  else if eq_str type "user" && user_truthy user then
    match user with
    | UValue (JDict d) => i <- getitem (JDict d) "id" ;; Ok (mkMention type (Some i))
    | UValue _ => Raise (AttributeError "object has no attribute 'id'")
    | UObject i => Ok (mkMention type (Some i))
    end
  else Ok (mkMention type None).

(** [Mention.to_json]. *)
Definition Mention_to_json (m : Mention) : Res json :=
  match user_id m with
  | Some i => Ok (JDict [("type", mention_type m); ("userId", i)])
  | None => Raise (AttributeError "user_id")
  end.

(** The three shortcuts. *)
Definition Mention_all : Res Mention := Mention_init (JStr "all") (UValue JNull).
Definition Mention_user (id : json) : Res Mention :=
  Mention_init (JStr "user") (UObject id).
Definition Mention_from_user_id (id : string) : Res Mention :=
  Mention_init (JStr "user") (UValue (JDict [("id", JStr id)])).

(** The loop of [Mention.includes_mention]: [None] when it returns [True]
    at a mention of everybody, otherwise the user ids collected. *)
Fixpoint collect_mentions (mentionees : list json) : Res (option (list json)) :=
  match mentionees with
  | [] => Ok (Some [])
  | mention :: rest =>
      ty <- getitem mention "type" ;;
      if eq_str ty "all" then Ok None
      else
        uid <- getitem mention "userId" ;;
        r <- collect_mentions rest ;;
        Ok (option_map (cons uid) r)
  end.

(** [Mention.includes_mention(mentionees, user)] for a user given as the
    string of an id (a user object is given by its [id]). *)
Definition includes_mention (mentionees : json) (user : string) : Res bool :=
  ms <- iterate mentionees ;;
  r <- collect_mentions ms ;;
  match r with
  | None => Ok true
  | Some mentions => Ok (existsb (fun v => eq_str v user) mentions)
  end.

(** A match of the pattern of [emoji_text_to_emojis]: its span and its two
    groups. *)
Record Match := mkMatch {
  m_start : nat;
  m_end : nat;
  m_emoji_id : string;
  m_product_id : string
}.

(** The loop of [Emoji.emoji_text_to_emojis] over the matches. *)
Fixpoint emoji_loop (text : string) (matches : list Match) (result : string)
    (prev_end : nat) (emojis : list json) : string * nat * list json :=
  match matches with
  | [] => (result, prev_end, emojis)
  | m :: rest =>
      let result' := (result ++ (slice text prev_end (m_start m) ++ "$"))%string in
      emoji_loop text rest result' (m_end m)
        (emojis ++ [JDict [("index", JNum (inject_Z (Z.of_nat (String.length result') - 1)));
                           ("emojiId", JStr (m_emoji_id m));
                           ("productId", JStr (m_product_id m))]])
  end.

Section Library.

(** [str(v)], as an f-string formats a value, and [re.finditer] with the
    pattern of [emoji_text_to_emojis]. *)
Variable py_str : json -> string.
Variable finditer : string -> list Match.

(** [Emoji.__init__] and [Emoji.to_json]. *)
Definition Emoji_init (product_id emoji_id : json) : Emoji :=
  mkEmoji product_id emoji_id
          ("[" ++ py_str emoji_id ++ "](" ++ py_str product_id ++ ")").

Definition Emoji_to_json (e : Emoji) : json :=
  JDict [("productId", product_id e); ("emojiId", emoji_id e)].

(** [Emoji.emoji_text_to_emojis]. *)
Definition emoji_text_to_emojis (text : string) : string * list json :=
  let '(result, prev_end, emojis) := emoji_loop text (finditer text) "" 0 [] in
  ((result ++ slice_from text (Z.of_nat prev_end))%string, emojis).

(** One pass of the loop of [Emoji.fit_on_texts].  On an [output] that
    is not a string, the slicing or the concatenation fails; that is a
    [TypeError] here. *)
Definition fit_one (output : json) (emoji : json) : Res json :=
  index <- getitem emoji "index" ;;
  length <- getitem emoji "length" ;;
  eid <- getitem emoji "emojiId" ;;
  pid <- getitem emoji "productId" ;;
  match output, as_int index, as_int length with
  | JStr o, Some i, Some l =>
      Ok (JStr (slice_to o i
                ++ ("[" ++ py_str eid ++ "](" ++ py_str pid ++ ")")
                ++ slice_from o (i + l)))
  | JStr _, _, _ => Raise (TypeError "slice indices must be integers")
  | _, _, _ => Raise (TypeError "unsupported operand type(s)")
  end.

(** [Emoji.fit_on_texts]. *)
Fixpoint fit_on_texts (output : json) (emojis : list json) : Res json :=
  match emojis with
  | [] => Ok output
  | emoji :: rest => output' <- fit_one output emoji ;; fit_on_texts output' rest
  end.

(** [TextMessageContext.emojis]. *)
Definition TextMessageContext_emojis (self : Context) : Res (list Emoji) :=
  match attrs self with
  | TextMessageContext _ _ emojis _ =>
      es <- iterate emojis ;;
      mapM (fun emoji =>
              p <- getitem emoji "productId" ;;
              e <- getitem emoji "emojiId" ;;
              Ok (Emoji_init p e)) es
  | _ => no_attribute "emojis"
  end.

(** [TextMessageContext.text_with_emojis]. *)
Definition TextMessageContext_text_with_emojis (self : Context) : Res json :=
  es <- TextMessageContext_emojis self ;;
  text <- TextMessageContext_text self ;;
  fit_on_texts text (map Emoji_to_json es).

End Library.

(** [TextMessageContext.mentions]. *)
Definition TextMessageContext_mentions (self : Context) : Res (list Mention) :=
  match attrs self with
  | TextMessageContext _ _ _ mentions =>
      ms <- iterate mentions ;;
      mapM (fun mention =>
              ty <- getitem mention "type" ;;
              uid <- get mention "userId" JNull ;;
              Mention_init ty (UValue uid)) ms
  | _ => no_attribute "mentions"
  end.

(** [TextMessageContext.mentioned]. *)
Definition TextMessageContext_mentioned (self : Context) (user : string) : Res bool :=
  match attrs self with
  | TextMessageContext _ _ _ mentions => includes_mention mentions user
  | _ => no_attribute "mentioned"
  end.

(** A mentionee as the platform sends it: a mention of everybody, or a
    mention that names a user. *)
Definition mentionee_well_formed (m : json) : Prop :=
  exists ty, getitem m "type" = Ok ty
             /\ (eq_str ty "all" = true \/ exists uid, getitem m "userId" = Ok uid).

(** The mentionee is a mention of everybody, or names the user. *)
Definition mentions_user (user : string) (m : json) : bool :=
  match getitem m "type" with
  | Ok ty =>
      eq_str ty "all"
      || match getitem m "userId" with
         | Ok uid => eq_str uid user
         | Raise _ => false
         end
  | Raise _ => false
  end.

(** The entry that [emoji_text_to_emojis] makes for a match whose
    placeholder is at position [i]. *)
Definition emoji_entry (i : nat) (m : Match) : json :=
  JDict [("index", JNum (inject_Z (Z.of_nat i)));
         ("emojiId", JStr (m_emoji_id m));
         ("productId", JStr (m_product_id m))].

(** The entry [e] is the entry of the match [m], and its index is the
    position of a placeholder in the text [result]. *)
Definition placed (result : string) (e : json) (m : Match) : Prop :=
  exists i, e = emoji_entry i m /\ String.get i result = Some "$"%char.

End TextModels.

(** ** linex/utils.py and the routers of linex/application.py *)

Module Routers.
Import Context TextModels.

(** *** Strings *)

(** [s.split(sep)] for a separator of one character. *)
Fixpoint split_on (sep : ascii) (s : string) : list string :=
  match s with
  | EmptyString => [EmptyString]
  | String c s' =>
      if Ascii.eqb c sep then EmptyString :: split_on sep s'
      else
        match split_on sep s' with
        | part :: parts => String c part :: parts
        | [] => [String c EmptyString]
        end
  end.

(** The characters that [str.isspace] accepts, among the first 256. *)
Definition is_space (c : ascii) : bool :=
  let n := nat_of_ascii c in
  ((9 <=? n)%nat && (n <=? 13)%nat) || ((28 <=? n)%nat && (n <=? 32)%nat)
  || (n =? 133)%nat || (n =? 160)%nat.

Fixpoint drop_spaces (l : list ascii) : list ascii :=
  match l with
  | c :: l' => if is_space c then drop_spaces l' else l
  | [] => []
  end.

(** [s.rstrip()]. *)
Definition rstrip (s : string) : string :=
  string_of_list_ascii (rev (drop_spaces (rev (list_ascii_of_string s)))).

Definition contains (c : ascii) (s : string) : bool :=
  existsb (Ascii.eqb c) (list_ascii_of_string s).

(** *** linex/utils.py *)

(** [postback_data(name, *data)]; each item of [data] is given by its
    [str]. *)
Definition postback_data (name : string) (data : list string) : string :=
  (name ++ ";" ++ String.concat ";" data)%string.

(** The kinds of [inspect.Parameter]. *)
Inductive Kind :=
| POSITIONAL_ONLY
| POSITIONAL_OR_KEYWORD
| VAR_POSITIONAL
| KEYWORD_ONLY
| VAR_KEYWORD.

(** What a handler is called with. *)
Inductive Arg :=
| ACtx (c : Context)
| AStrV (s : string)
| AIntV (z : Z)
| AFloatV (q : Q)
| ABoolV (b : bool).

(** How a step of a router ends: a value, an exception that [exn] has, or
    a [ValueError]. *)
Inductive Outcome (A : Type) :=
| Done (a : A)
| Fails (e : exn)
| FailsValueError (msg : string).
Arguments Done {A} a.
Arguments Fails {A} e.
Arguments FailsValueError {A} msg.

(** The annotation of a parameter: one of the four types that the routers
    accept, or anything else, given by what calling it on a string does. *)
Inductive Ann :=
| AStr
| AInt
| AFloat
| ABool
| AOther (call : string -> Outcome Arg).

Record Param := mkParam {
  p_name : string;
  p_ann : Ann;
  p_kind : Kind
}.

(** The dict that [get_params_with_types] returns. *)
Record Meta := mkMeta {
  regular : list (string * Ann);
  kw : option (string * Ann)
}.

Definition is_keyword_only (p : Param) : bool :=
  match p_kind p with
  | KEYWORD_ONLY => true
  | _ => false
  end.

Definition newline : string := String (ascii_of_nat 10) EmptyString.

Definition more_than_one_keyword_only (current error : string) : exn :=
  TypeError ("Keyword-only arguments (followed by an asterisk *), should only have one, but got more than one."
             ++ newline ++ "- Current keyword-only arg: '" ++ current ++ "'"
             ++ newline ++ "- Error keyword-only arg: '" ++ error ++ "'").

(** The loop of [get_params_with_types] over the parameters that follow
    the first. *)
Fixpoint collect_params (params : list Param) (meta : Meta) : Res Meta :=
  match params with
  | [] => Ok meta
  | p :: rest =>
      if is_keyword_only p then
        match kw meta with
        | Some current => Raise (more_than_one_keyword_only (fst current) (p_name p))
        | None => collect_params rest (mkMeta (regular meta) (Some (p_name p, p_ann p)))
        end
      else
        collect_params rest (mkMeta (regular meta ++ [(p_name p, p_ann p)]) (kw meta))
  end.

(** [get_params_with_types(func)] on the parameters of the signature. *)
Definition get_params_with_types (params : list Param) : Res Meta :=
  collect_params (tl params) (mkMeta [] None).

(** The pair that a parameter is recorded as. *)
Definition param_entry (p : Param) : string * Ann := (p_name p, p_ann p).

(** *** The handlers that [command] and [postback] register *)

Section Handlers.

(** [int(s)] and [float(s)]: the number, or [None] where they raise
    [ValueError]. *)
Variable py_int : string -> option Z.
Variable py_float : string -> option Q.

(** [_type(part)] for an annotation. *)
Definition convert (ann : Ann) (part : string) : Outcome Arg :=
  match ann with
  | AStr => Done (AStrV part)
  | AInt =>
      match py_int part with
      | Some z => Done (AIntV z)
      | None => FailsValueError "invalid literal for int()"
      end
  | AFloat =>
      match py_float part with
      | Some q => Done (AFloatV q)
      | None => FailsValueError "could not convert string to float"
      end
  | ABool => Done (ABoolV (negb (String.eqb part "")))
  | AOther call => call part
  end.

Definition supported (ann : Ann) : bool :=
  match ann with
  | AOther _ => false
  | _ => true
  end.

Definition unsupported_message (func_name name : string) : string :=
  "Postback handler " ++ func_name ++ ":" ++ newline ++ "Argument '" ++ name
  ++ "' is not a supported type. (From str, int, float, and bool.)".

(** The [for index, part in enumerate(parts)] loop of both handlers.
    [spacer] is what follows each part that goes to the keyword-only
    parameter: a space for a command, nothing for a postback.  [kwargs]
    is the string collected for that parameter, [None] while the dict is
    empty. *)
Fixpoint parse_parts (func_name : string) (spacer : string) (meta : Meta)
    (index : nat) (parts : list string) (args : list Arg) (kwargs : option string)
  : Outcome (list Arg * option string) :=
  match parts with
  | [] => Done (args, kwargs)
  | part :: rest =>
      match kw meta with
      | Some _ =>
          if (length (regular meta) <? index + 1)%nat then
            parse_parts func_name spacer meta (S index) rest args
              (Some (default "" kwargs ++ (part ++ spacer)))%string
          else
            match nth_error (regular meta) index with
            | None => Fails (IndexError "list index out of range")
            | Some (name, _type) =>
                if supported _type then
                  match convert _type part with
                  | Done v => parse_parts func_name spacer meta (S index) rest
                                (args ++ [v]) kwargs
                  | Fails e => Fails e
                  | FailsValueError m => FailsValueError m
                  end
                else Fails (TypeError (unsupported_message func_name name))
            end
      | None =>
          match nth_error (regular meta) index with
          | None => Fails (IndexError "list index out of range")
          | Some (name, _type) =>
              if supported _type then
                match convert _type part with
                | Done v => parse_parts func_name spacer meta (S index) rest
                              (args ++ [v]) kwargs
                | Fails e => Fails e
                | FailsValueError m => FailsValueError m
                end
              else Fails (TypeError (unsupported_message func_name name))
          end
      end
  end.

(** The parts convert, one by one, to the values, under the annotations
    of as many parameters, all of supported types. *)
Inductive Converted : list (string * Ann) -> list string -> list Arg -> Prop :=
| Converted_nil : Converted [] [] []
| Converted_cons name ann part v params parts vals :
    supported ann = true ->
    convert ann part = Done v ->
    Converted params parts vals ->
    Converted ((name, ann) :: params) (part :: parts) (v :: vals).

(** A coroutine function that a router wraps: its name, whether it is a
    coroutine function, its parameters, and how a call of it with given
    positional arguments and keyword argument ends. *)
Record Func := mkFunc {
  f_name : string;
  f_is_coro : bool;
  f_params : list Param;
  f_call : list Arg -> option (string * Arg) -> Outcome unit
}.

(** The closure [on_text] that [command(name=cmd_name)] registers. *)
Definition on_text (cmd_name : string) (meta : Meta) (func : Func) (ctx : Context)
  : Outcome unit :=
  match TextMessageContext_text ctx with
  | Raise e => Fails e
  | Ok (JStr content) =>
      if negb (String.prefix cmd_name content) then Done tt
      else
        match kw meta, regular meta with
        | None, [] => f_call func [ACtx ctx] None
        | _, _ =>
            let parts :=
              split_on ";" (slice_from content (Z.of_nat (String.length (cmd_name ++ " ")))) in
            match parse_parts (f_name func) " " meta 0 parts [ACtx ctx] None with
            | Done (args, kwargs) =>
                match kwargs, kw meta with
                | Some collected, Some (k, _) =>
                    f_call func args (Some (k, AStrV (rstrip collected)))
                | _, _ => f_call func args None
                end
            | Fails e => Fails e
            | FailsValueError m => FailsValueError m
            end
        end
  | Ok _ => Fails (AttributeError "object has no attribute 'startswith'")
  end.

(** The closure [on_postback] that [postback(data)] registers.  Data that
    is not a string fails at the slice or at [split]; the theorems are
    about string data. *)
Definition on_postback (data : string) (meta : Meta) (func : Func) (ctx : Context)
  : Outcome unit :=
  match PostbackContext_data ctx with
  | Raise e => Fails e
  | Ok (JStr ctx_data) =>
      let parts :=
        split_on ";" (slice_from ctx_data (Z.of_nat (String.length (data ++ ";")))) in
      match parse_parts (f_name func) "" meta 0 parts [ACtx ctx] None with
      | Done (args, kwargs) =>
          match kwargs, kw meta with
          | Some collected, Some (k, ann) =>
              match convert ann collected with
              | Done v => f_call func args (Some (k, v))
              | Fails e => Fails e
              | FailsValueError m => FailsValueError m
              end
          | _, _ => f_call func args None
          end
      | Fails e => Fails e
      | FailsValueError m => FailsValueError m
      end
  | Ok (JList _) => Fails (AttributeError "'list' object has no attribute 'split'")
  | Ok _ => Fails (TypeError "object is not subscriptable")
  end.

(** How a registration by a router ends: the channel and the closure
    handed to [Client.event], or the exception; in both cases with the
    list [_commands] as the call leaves it. *)
Inductive Registration :=
| Registered (commands : list string) (channel : string)
             (handler : Context -> Outcome unit)
| Rejected (commands : list string) (e : Outcome unit).

Definition not_a_coroutine (func : Func) : exn :=
  TypeError ("Function " ++ f_name func ++ " is not a coroutine (async) function.").

(** [Client.command(name=name)(func)]. *)
Definition command (name : string) (func : Func) (commands : list string)
  : Registration :=
  if existsb (String.eqb name) commands then
    Rejected commands (FailsValueError ("Command already exists: '" ++ name ++ "'"))
  else if negb (f_is_coro func) then
    Rejected commands (Fails (not_a_coroutine func))
  else
    let commands' := commands ++ [name] in
    match get_params_with_types (f_params func) with
    | Raise e => Rejected commands' (Fails e)
    | Ok meta => Registered commands' "text" (on_text name meta func)
    end.

(** [Client.postback(data)(func)]. *)
Definition postback (data : string) (func : Func) (commands : list string)
  : Registration :=
  if negb (f_is_coro func) then
    Rejected commands (Fails (not_a_coroutine func))
  else
    match get_params_with_types (f_params func) with
    | Raise e => Rejected commands (Fails e)
    | Ok meta => Registered commands "postback" (on_postback data meta func)
    end.

End Handlers.

(** The list [_commands] after a registration, however it ended. *)
Definition commands_after (r : Registration) : list string :=
  match r with
  | Registered commands _ _ => commands
  | Rejected commands _ => commands
  end.

End Routers.

(** ** Sample events and contexts *)

Module Fixtures.
Import Context Application.

(** The envelope of an event delivered at platform time [ts]
    (milliseconds), with the fields of its kind in [extra]. *)
Definition envelope (ty mode : string) (ts : Z) (extra : list (string * json)) : json :=
  JDict ([("type", JStr ty);
          ("mode", JStr mode);
          ("timestamp", JNum (inject_Z ts));
          ("source", JDict [("type", JStr "group");
                            ("groupId", JStr "C4af4980629");
                            ("userId", JStr "U4af4980629")]);
          ("webhookEventId", JStr "01FZ74A0TDDPYRVKNK77XKC3ZR");
          ("deliveryContext", JDict [("isRedelivery", JBool false)])]
         ++ extra).

Definition t0 : Z := 1700000000000.

Definition text_event : json :=
  envelope "message" "active" t0
    [("replyToken", JStr "nHuyWiB7yP5Zw52FIkcQobQuGDXCTA");
     ("message", JDict [("id", JStr "444573844083572737");
                        ("type", JStr "text");
                        ("text", JStr "hello")])].

Definition sticker_event : json :=
  envelope "message" "active" t0
    [("replyToken", JStr "nHuyWiB7yP5Zw52FIkcQobQuGDXCTA");
     ("message", JDict [("id", JStr "1501597916");
                        ("type", JStr "sticker");
                        ("packageId", JStr "446");
                        ("stickerId", JStr "1988");
                        ("stickerResourceType", JStr "MESSAGE");
                        ("keywords", JList [JStr "cony"; JStr "sally"]);
                        ("text", JStr "Let's hang out this weekend!")])].

Definition left_members : json :=
  JList [JDict [("type", JStr "user"); ("userId", JStr "U4af4980629")];
         JDict [("type", JStr "user"); ("userId", JStr "U91eeaf62d9")]].

Definition member_left_event : json :=
  envelope "memberLeft" "active" t0
    [("left", JDict [("members", left_members)])].

Definition beacon_event : json :=
  envelope "beacon" "active" t0
    [("replyToken", JStr "8cf9239d56244f4197887e939187e19e");
     ("beacon", JDict [("hwid", JStr "d41d8cd98f"); ("type", JStr "enter")])].

(** A postback of a plain button: no [params]. *)
Definition postback_event : json :=
  envelope "postback" "active" t0
    [("replyToken", JStr "b60d432864f44d079f6d8efe86cf404b");
     ("postback", JDict [("data", JStr "storeId=12345")])].

Definition follow_event : json :=
  envelope "follow" "active" t0
    [("replyToken", JStr "85cbe770fa8b4f45bbe077b1d4be4a36")].

(** A follow event in standby mode: it carries no reply token. *)
Definition follow_standby_event : json :=
  envelope "follow" "standby" t0 [].

(** A message of a kind that [finder] does not list. *)
Definition contact_event : json :=
  envelope "message" "active" t0
    [("replyToken", JStr "nHuyWiB7yP5Zw52FIkcQobQuGDXCTA");
     ("message", JDict [("id", JStr "444573844083572999");
                        ("type", JStr "contact")])].

(** An event of a kind that the platform sends and [process] does not
    list. *)
Definition module_event : json :=
  envelope "module" "active" t0
    [("module", JDict [("type", JStr "attached"); ("botId", JStr "U5af4980629")])].

(** Seconds since the epoch at which the platform stamped the samples. *)
Definition t0_seconds : Q := (inject_Z t0 / 1000)%Q.

(** Nineteen and twenty-one minutes after the event. *)
Definition t19 : Q := (t0_seconds + 19 * 60)%Q.
Definition t21 : Q := (t0_seconds + 21 * 60)%Q.

(** A clock that reads nineteen minutes after the event all along. *)
Definition clock19 : nat -> Q := fun _ => t19.

(** No emoji markup in the text: the text is returned as it is. *)
Definition plain_text (s : string) : string * list json := (s, []).

(** A network on which every reply is accepted, and one on which the
    client raises. *)
Definition post_ok (_ : ReplyRequest) : Res json := Ok (JDict []).
Definition post_down (_ : ReplyRequest) : Res json :=
  Raise (TransportError "connection refused").

(** The context that [text_event] decodes to when the clock reads [now]. *)
Definition sample_text_at (now : Q) : Context :=
  mkContext
    (mkBase (JStr "message") (JStr "01FZ74A0TDDPYRVKNK77XKC3ZR") (JBool false)
            t0_seconds
            (JDict [("type", JStr "group");
                    ("groupId", JStr "C4af4980629");
                    ("userId", JStr "U4af4980629")])
            (JStr "nHuyWiB7yP5Zw52FIkcQobQuGDXCTA") (JStr "active")
            (now - t0_seconds))
    false
    (TextMessageContext (JStr "hello") (JStr "444573844083572737") (JList []) (JList [])).

Definition sample_text : Context := sample_text_at t0_seconds.

(** [repr] on the strings that the samples use. *)
Definition repr_str (v : json) : string :=
  match v with
  | JStr s => "'" ++ s ++ "'"
  | _ => "<object>"
  end.

(** A handler that returns. *)
Definition logging_handler (name : string) : Handler :=
  mkHandler name (fun _ => None).

(** A client with one handler on follow events, one on text messages and
    three on beacon events, registered in the order A, B, C. *)
Definition sample_world : World :=
  listen "beacon" (logging_handler "C")
    (listen "beacon" (logging_handler "B")
       (listen "beacon" (logging_handler "A")
          (listen "text" (logging_handler "on_text")
             (listen "follow" (logging_handler "on_follow") (world0 true))))).

Definition batch (events : list json) : json :=
  JDict [("destination", JStr "Uf1f9a6c8b6a2"); ("events", JList events)].

(** The world after a waiter has registered [_id] on a channel, as the
    first lines of [wait_for] leave it. *)
Definition with_waiter (name _id : string) (w : World) : World :=
  mkWorld (handlers w)
          (<[name := <[_id := None]> (default ∅ (pending w !! name))]> (pending w))
          (ignore_standby w) (MESSAGES w) (log w) (headers w) (user w).

(** The client once [run] has set the authorization headers and
    [lifespan] has fetched the bot user. *)
Definition running (w : World) : World :=
  mkWorld (handlers w) (pending w) (ignore_standby w) (MESSAGES w) (log w)
          (Some (JDict [("Authorization", JStr "Bearer t0k3n")]))
          (Some (JStr "@linex")).

(** A handler that raises. *)
Definition failing_handler (name : string) (e : exn) : Handler :=
  mkHandler name (fun _ => Some e).

(** Stand-ins for the library functions of the route, for a request whose
    signature matches: the digest is the key followed by the message, and
    the two encodings are the bytes as they are. *)
Definition toy_hmac (key msg : list Byte.byte) : list Byte.byte := key ++ msg.

(** Equality of two [bytes] objects, which is what [hmac.compare_digest]
    returns. *)
Fixpoint bytes_eqb (a b : list Byte.byte) : bool :=
  match a, b with
  | [], [] => true
  | x :: a', y :: b' => Byte.eqb x y && bytes_eqb a' b'
  | _, _ => false
  end.
Definition toy_b64encode (digest : list Byte.byte) : list Byte.byte := digest.
Definition toy_encode (s : string) : list Byte.byte := list_byte_of_string s.

(** A standby event of a kind that is not listed, and one with nothing
    but its mode. *)
Definition module_standby_event : json :=
  envelope "module" "standby" t0 [].
Definition bare_standby_event : json :=
  JDict [("mode", JStr "standby")].

(** A text message with a mention of everybody, a mention of a user and
    an emoji, and the context it decodes to. *)
Definition mention_everybody : json :=
  JDict [("index", JNum 0); ("length", JNum 4); ("type", JStr "all")].

Definition mention_example : json :=
  JDict [("index", JNum 5); ("length", JNum 8); ("type", JStr "user");
         ("userId", JStr "U49585cd0d5")].

Definition love_emoji : json :=
  JDict [("index", JNum 29); ("length", JNum 6);
         ("productId", JStr "5ac1bfd5040ab15980c9b435"); ("emojiId", JStr "001")].

Definition sample_mentions : Context :=
  mkContext (base (sample_text_at t19)) false
    (TextMessageContext (JStr "@All @example Good Morning!! (love)")
       (JStr "444573844083572737") (JList [love_emoji])
       (JList [mention_example; mention_everybody])).

(** [str] on the strings that the samples use. *)
Definition str_of (v : json) : string :=
  match v with
  | JStr s => s
  | _ => "<object>"
  end.

(** The matches of the pattern in ["Hi [001](5ac1) there"]. *)
Definition one_match (_ : string) : list TextModels.Match :=
  [TextModels.mkMatch 3 14 "001" "5ac1"].

(** A text message and a postback with given contents. *)
Definition text_saying (s : string) : Context :=
  mkContext (base sample_text) false
    (TextMessageContext (JStr s) (JStr "444573844083572737") (JList []) (JList [])).

Definition postback_of (s : string) : Context :=
  mkContext (base sample_text) false (PostbackContext (JDict [("data", JStr s)])).

(** Functions given to the routers:
    [async def greet(ctx, who: str, *, message: str)],
    [async def wave(ctx, who: str)], [async def ping(ctx)] and
    [async def twice(ctx, *, a: str, b: str)]. *)
Definition ctx_param : Routers.Param :=
  Routers.mkParam "ctx"
    (Routers.AOther (fun _ => Routers.Fails (TypeError "not callable")))
    Routers.POSITIONAL_OR_KEYWORD.

Definition greet : Routers.Func :=
  Routers.mkFunc "greet" true
    [ctx_param;
     Routers.mkParam "who" Routers.AStr Routers.POSITIONAL_OR_KEYWORD;
     Routers.mkParam "message" Routers.AStr Routers.KEYWORD_ONLY]
    (fun _ _ => Routers.Done tt).

Definition wave : Routers.Func :=
  Routers.mkFunc "wave" true
    [ctx_param; Routers.mkParam "who" Routers.AStr Routers.POSITIONAL_OR_KEYWORD]
    (fun _ _ => Routers.Done tt).

Definition ping : Routers.Func :=
  Routers.mkFunc "ping" true [ctx_param] (fun _ _ => Routers.Done tt).

Definition twice : Routers.Func :=
  Routers.mkFunc "twice" true
    [ctx_param;
     Routers.mkParam "a" Routers.AStr Routers.KEYWORD_ONLY;
     Routers.mkParam "b" Routers.AStr Routers.KEYWORD_ONLY]
    (fun _ _ => Routers.Done tt).

(** What [get_params_with_types] gives for [greet], [wave] and [ping]. *)
Definition greet_meta : Routers.Meta :=
  Routers.mkMeta [("who", Routers.AStr)] (Some ("message", Routers.AStr)).
Definition wave_meta : Routers.Meta := Routers.mkMeta [("who", Routers.AStr)] None.
Definition ping_meta : Routers.Meta := Routers.mkMeta [] None.

(** [int] and [float] on strings that are not numbers. *)
Definition not_a_number {A : Type} (_ : string) : option A := None.

(** The handler invocations of a log, in order. *)
Definition invocations (l : list Effect) : list (string * Context) :=
  flat_map (fun e => match e with Invoked h c => [(h, c)] | _ => [] end) l.

End Fixtures.

(** * Properties *)

(** ** Rationals *)

Lemma Qltb_lt (a b : Q) : Qltb a b = true <-> (a < b)%Q.
Proof.
  unfold Qltb. rewrite negb_true_iff.
  split; intros H.
  - apply Qnot_le_lt. intros Hle. apply Qle_bool_iff in Hle. congruence.
  - destruct (Qle_bool b a) eqn:E; [|reflexivity].
    apply Qle_bool_iff in E. exfalso. apply (Qlt_not_le _ _ H E).
Qed.



(** ** The rate limiter *)

Module RateLimitingFacts.
Import RateLimiting.





(** While a deadline is recorded, a task that runs alone never gets
    through [call]: it sleeps and calls itself again, whatever the fuel. *)
Lemma call_behind_deadline self st :
  num_truthy (wait_end st) = true ->
  forall fuel now, call fuel self now st = None.
Proof.
  intros Hw fuel. induction fuel as [|fuel IH]; intros now;
    cbn [call]; unfold call_begin; rewrite Hw; [reflexivity|].
  now rewrite IH.
Qed.



(** C6. The counters are not per bucket.  Sixty profile lookups, which go
    through [rr_getUser] (2000 a second), followed by the first ever
    [test_webhook], which goes through [rr_testWebhook] (60 an hour): the
    lookups have counted against the status that [rr_testWebhook] reads,
    so that request is suspended for an hour, although alone on a fresh
    status it is not; and while it sleeps, a lookup finds its deadline and
    is held behind it. *)
Theorem status_shared_between_buckets :
  run_calls 0 (on_bucket Http.rr_getUser (seconds_from 1000 60)
               ++ [(Http.rr_testWebhook, 1060%Q)]) status0
  = Some (repeat 0%Q 60 ++ [3600.1%Q], status0)
  /\ run_calls 0 [(Http.rr_testWebhook, 1060%Q)] status0
     = Some ([0%Q], mkStatus 1060 1 0)
  /\ call_begin Http.rr_testWebhook 1060 (mkStatus 1000 60 0)
     = SleepReset 3600.1 (mkStatus 1000 61 4660.1)
  /\ call_begin Http.rr_getUser 1061 (mkStatus 1000 61 4660.1)
     = SleepRetry (1061 - 4660.1) (mkStatus 1000 61 4660.1)
  /\ forall fuel now, call fuel Http.rr_getUser now (mkStatus 1000 61 4660.1) = None.
Proof.
  split; [vm_compute; reflexivity|].
  split; [vm_compute; reflexivity|].
  split; [vm_compute; reflexivity|].
  split; [vm_compute; reflexivity|].
  apply call_behind_deadline. reflexivity.
Qed.

End RateLimitingFacts.

(** ** Waiting for an event *)

Module WaitForFacts.
Import Context Application Fixtures.

Section Loop.

Variable check : Context -> bool.
Variable timeout : option Z.
Variables name _id : string.
Variable others : nat -> Pending -> Pending.

(** A pass that finds a rejected context in the slot changes nothing, so
    the next pass finds the same. *)
Lemma wait_for_loop_continue (p : Pending) (c : Context) :
  slot p name _id = Ok (Some c) ->
  check c = false ->
  forall fuel i elapsed,
    wait_for_loop check timeout name _id others fuel i elapsed p = None.
Proof.
  intros Hslot Hcheck fuel.
  induction fuel as [|fuel IH]; intros i elapsed; cbn [wait_for_loop].
  - reflexivity.
  - rewrite Hslot, Hcheck. cbn [negb]. apply IH.
Qed.

(** C9. Once the slot of the request holds a context that the predicate
    rejects, every pass of the loop takes [continue]: no sleep, no change
    of [elapsed], no test of the timeout, and no other task runs.  The
    loop does not end, whatever the timeout and however much fuel; and a
    call whose slot is filled with such a context during its first sleep
    does not end either, unless the timeout has already struck at that
    first sleep. *)
Theorem wait_for_rejected_value_spins (p : Pending) (c : Context) :
  slot p name _id = Ok (Some c) ->
  check c = false ->
  (forall fuel i elapsed,
     wait_for_loop check timeout name _id others fuel i elapsed p = None)
  /\ forall (p0 : Pending) (m : gmap string (option Context)),
       p0 !! name = Some m ->
       others 0%nat (<[name := <[_id := None]> m]> p0) = p ->
       timed_out timeout (0 + 0.01) = false ->
       forall fuel, wait_for check timeout name _id others fuel p0 = None.
Proof.
  intros Hslot Hcheck. split.
  - now apply wait_for_loop_continue with (c := c).
  - intros p0 m Hm Hothers Hto [|fuel]; unfold wait_for; rewrite Hm; [reflexivity|].
    cbn [wait_for_loop].
    assert (Hs0 : slot (<[name := <[_id := None]> m]> p0) name _id = Ok None).
    { unfold slot. rewrite lookup_insert_eq. now rewrite lookup_insert_eq. }
    rewrite Hs0. cbv zeta. rewrite Hto, Hothers.
    now apply wait_for_loop_continue with (c := c).
Qed.

End Loop.

Lemma wait_for_rejected_value_spins_witness :
  let p : Pending := <["text" := {["req-1" := Some sample_text]}]> pending0 in
  let others : nat -> Pending -> Pending :=
    fun i q => match i with O => fulfilled "text" sample_text q | _ => q end in
  slot p "text" "req-1" = Ok (Some sample_text)
  /\ wait_for_loop (fun _ => false) (Some 1%Z) "text" "req-1" others 1000 1 0.01 p = None
  /\ wait_for (fun _ => false) (Some 1%Z) "text" "req-1" others 1000 pending0 = None.
Proof.
  intros p others.
  assert (Hs : slot p "text" "req-1" = Ok (Some sample_text)) by (vm_compute; reflexivity).
  destruct (wait_for_rejected_value_spins (fun _ => false) (Some 1%Z) "text" "req-1"
              others p sample_text Hs eq_refl) as [Hloop Hcall].
  split; [exact Hs|]. split; [apply Hloop|].
  apply (Hcall pending0 ∅).
  - vm_compute. reflexivity.
  - vm_compute. reflexivity.
  - vm_compute. reflexivity.
Defined.

(** While the slot stays empty, the loop sleeps until [elapsed] reaches
    the timeout and then raises; [n] is the number of sleeps still to
    come. *)
Lemma wait_for_loop_idle check (t : Z) name _id (p : Pending) :
  t <> 0%Z ->
  slot p name _id = Ok None ->
  forall n fuel i elapsed,
    (1 <= n <= fuel)%nat ->
    (elapsed + inject_Z (Z.of_nat n) * 0.01 == inject_Z t)%Q ->
    wait_for_loop check (Some t) name _id (fun _ q => q) fuel i elapsed p
    = Some (Raise (TimeoutError (timeout_message name)), p).
Proof.
  intros Ht Hslot n.
  induction n as [|n IH]; intros fuel i elapsed [Hn Hfuel] He; [lia|].
  destruct fuel as [|fuel]; [lia|].
  cbn [wait_for_loop]. rewrite Hslot. cbv beta zeta.
  rewrite Nat2Z.inj_succ in He. unfold Z.succ in He. rewrite inject_Z_plus in He.
  change (inject_Z 1) with 1%Q in He.
  unfold timed_out.
  replace (t =? 0)%Z with false by (symmetry; now apply Z.eqb_neq).
  cbn [negb andb].
  destruct n as [|n].
  - change (inject_Z (Z.of_nat 0)) with 0%Q in He.
    replace (Qle_bool (inject_Z t) (elapsed + 0.01)) with true; [reflexivity|].
    symmetry. apply Qle_bool_iff. lra.
  - replace (Qle_bool (inject_Z t) (elapsed + 0.01)) with false.
    + apply IH; [lia|]. lra.
    + symmetry. destruct (Qle_bool (inject_Z t) (elapsed + 0.01)) eqn:E; [|reflexivity].
      apply Qle_bool_iff in E. exfalso.
      assert (0 <= inject_Z (Z.of_nat n))%Q.
      { change 0%Q with (inject_Z 0). rewrite <- Zle_Qle. lia. }
      rewrite Nat2Z.inj_succ in He. unfold Z.succ in He. rewrite inject_Z_plus in He.
      change (inject_Z 1) with 1%Q in He. lra.
Qed.

(** C7. A waiter with a positive timeout on a channel where nothing is
    dispatched: after [100 * timeout] sleeps the call raises
    [TimeoutError], and the entry that it made for its request id is still
    in the pending map of the channel, holding [None].  The [del] that
    removes the entry comes after the loop and is only reached when the
    loop ends with a result. *)
Theorem wait_for_timeout_leaves_entry check (t : Z) name _id (p : Pending)
    (m : gmap string (option Context)) :
  (0 < t)%Z ->
  p !! name = Some m ->
  forall fuel, (Z.to_nat (100 * t) <= fuel)%nat ->
    exists p',
      wait_for check (Some t) name _id (fun _ q => q) fuel p
      = Some (Raise (TimeoutError (timeout_message name)), p')
      /\ slot p' name _id = Ok None.
Proof.
  intros Ht Hm fuel Hfuel.
  exists (<[name := <[_id := None]> m]> p).
  assert (Hslot : slot (<[name := <[_id := None]> m]> p) name _id = Ok None).
  { unfold slot. rewrite lookup_insert_eq. now rewrite lookup_insert_eq. }
  split; [|exact Hslot].
  unfold wait_for. rewrite Hm.
  apply (wait_for_loop_idle check t name _id _ ltac:(lia) Hslot (Z.to_nat (100 * t))).
  - lia.
  - rewrite Z2Nat.id by lia. rewrite inject_Z_mult.
    change (inject_Z 100) with 100%Q. lra.
Qed.

Lemma wait_for_timeout_leaves_entry_witness :
  exists p',
    wait_for (fun _ => false) (Some 1%Z) "text" "req-1" (fun _ q => q) 100 pending0
    = Some (Raise (TimeoutError "Timeout while waiting for 'text' event."), p')
    /\ slot p' "text" "req-1" = Ok None.
Proof.
  apply (wait_for_timeout_leaves_entry (fun _ => false) 1 "text" "req-1" pending0 ∅).
  - lia.
  - vm_compute. reflexivity.
  - vm_compute. lia.
Defined.

End WaitForFacts.

(** ** Replying to a context *)

Module ReplyFacts.
Import Context Fixtures.

Lemma sample_text_decoded now :
  TextMessageContext_init text_event now = Ok (sample_text_at now).
Proof. reflexivity. Qed.

Section Reply.

Variable emoji_text_to_emojis : string -> string * list json.

(** On a context that carries a token and is marked as replied, every
    call raises [CannotReply], leaves the object as it is and hands
    nothing to the HTTP client, whatever the network does. *)
Lemma reply_after_replied post (self : Context) now1 now2 msgs sender qrs nd :
  is_repliable (attrs self) = true ->
  truthy (_reply_token (base self)) = true ->
  replied self = true ->
  exists msg,
    reply emoji_text_to_emojis post self now1 now2 msgs sender qrs nd
    = (Raise (CannotReply msg), self, []).
Proof.
  intros Hr Ht Hrep. unfold reply. rewrite Hr, Ht, Hrep. cbn [negb].
  destruct (Qltb (60 * 20) (now1 - _timestamp (base self))); eexists; reflexivity.
Qed.

Lemma Qltb_false (a b : Q) : Qltb a b = false -> ~ (a < b)%Q.
Proof. intros E H. apply Qltb_lt in H. congruence. Qed.

(** C3 (as amended). A call of [reply] on a reply-capable context, with
    messages that convert and a send that the network accepts.  Without a
    reply token the call raises [TypeError], not [CannotReply].  With a
    token it raises [CannotReply] exactly when more than 20 minutes lie
    between the event timestamp and one of the two clock readings of the
    call, or the context is already marked as replied; it then sends
    nothing and leaves the context as it is.  Otherwise it succeeds with
    exactly one send and marks the context, after which every further
    call on it raises [CannotReply] and sends nothing. *)
Theorem reply_window_and_once post (self : Context) now1 now2 msgs sender qrs nd
    valid0 valid resp :
  is_repliable (attrs self) = true ->
  mapM (to_valid_message emoji_text_to_emojis) msgs = Ok valid0 ->
  decorate valid0 sender qrs = Ok valid ->
  post (mkReplyRequest (_reply_token (base self)) valid nd) = Ok resp ->
  let out := reply emoji_text_to_emojis post self now1 now2 msgs sender qrs nd in
  let ts := _timestamp (base self) in
  (truthy (_reply_token (base self)) = false ->
     out = (Raise (TypeError "Reply error was not provided, check `ctx.state`."), self, []))
  /\ (truthy (_reply_token (base self)) = true ->
      (raises_CannotReply (fst (fst out))
       <-> (60 * 20 < now1 - ts)%Q \/ replied self = true \/ (60 * 20 < now2 - ts)%Q)
      /\ (raises_CannotReply (fst (fst out)) -> out = (fst (fst out), self, []))
      /\ (~ raises_CannotReply (fst (fst out)) ->
          let self' := mkContext (base self) true (attrs self) in
          out = (Ok tt, self', [mkReplyRequest (_reply_token (base self)) valid nd])
          /\ forall post' n1 n2 msgs' sender' qrs' nd',
               exists msg,
                 reply emoji_text_to_emojis post' self' n1 n2 msgs' sender' qrs' nd'
                 = (Raise (CannotReply msg), self', []))).
Proof.
  intros Hr Hmap Hdec Hpost out ts. subst out ts.
  split; intros Htok; unfold reply; rewrite Hr, Htok; cbn [negb]; [reflexivity|].
  destruct (Qltb (60 * 20) (now1 - _timestamp (base self))) eqn:E1.
  { cbn [fst]. split; [|split].
    - split; [intros _; left; now apply Qltb_lt | intros _; eexists; reflexivity].
    - reflexivity.
    - intros H. exfalso. apply H. eexists; reflexivity. }
  destruct (replied self) eqn:E2.
  { cbn [fst]. split; [|split].
    - split; [intros _; right; now left | intros _; eexists; reflexivity].
    - reflexivity.
    - intros H. exfalso. apply H. eexists; reflexivity. }
  unfold _to_valid_message_objects.
  destruct (Qltb (60 * 20) (now2 - _timestamp (base self))) eqn:E3.
  { cbn [bind fst]. split; [|split].
    - split; [intros _; right; right; now apply Qltb_lt | intros _; eexists; reflexivity].
    - reflexivity.
    - intros H. exfalso. apply H. eexists; reflexivity. }
  rewrite Hmap. cbn [bind]. rewrite Hdec, Hpost. cbn [fst].
  split; [|split].
  - split.
    + intros [msg Hmsg]. discriminate.
    + intros [H|[H|H]]; [now apply Qltb_false in E1 | discriminate | now apply Qltb_false in E3].
  - intros [msg Hmsg]. discriminate.
  - intros _. split; [reflexivity|].
    intros post' n1 n2 msgs' sender' qrs' nd'.
    apply reply_after_replied; assumption || reflexivity.
Qed.

(** C10. When the checks pass, the messages convert and the HTTP client
    raises, the exception comes out of [reply] with the context already
    marked as replied: the flag is set before the send is awaited and
    nothing restores it.  Every later call on that context raises
    [CannotReply] and sends nothing, also on a network that works. *)
Theorem reply_flag_survives_failed_send post (self : Context) now1 now2 msgs
    sender qrs nd valid0 valid e :
  is_repliable (attrs self) = true ->
  truthy (_reply_token (base self)) = true ->
  ~ (60 * 20 < now1 - _timestamp (base self))%Q ->
  replied self = false ->
  _to_valid_message_objects emoji_text_to_emojis self now2 msgs = Ok valid0 ->
  decorate valid0 sender qrs = Ok valid ->
  post (mkReplyRequest (_reply_token (base self)) valid nd) = Raise e ->
  let self' := mkContext (base self) true (attrs self) in
  reply emoji_text_to_emojis post self now1 now2 msgs sender qrs nd
  = (Raise e, self', [mkReplyRequest (_reply_token (base self)) valid nd])
  /\ replied self' = true
  /\ forall post' n1 n2 msgs' sender' qrs' nd',
       exists msg,
         reply emoji_text_to_emojis post' self' n1 n2 msgs' sender' qrs' nd'
         = (Raise (CannotReply msg), self', []).
Proof.
  intros Hr Htok Hnow Hrep Hvalid Hdec Hpost self'.
  split; [|split].
  - unfold reply. rewrite Hr, Htok, Hrep. cbn [negb].
    destruct (Qltb (60 * 20) (now1 - _timestamp (base self))) eqn:E1.
    { apply Qltb_lt in E1. contradiction. }
    rewrite Hvalid. cbn [bind]. rewrite Hdec, Hpost. reflexivity.
  - reflexivity.
  - intros post' n1 n2 msgs' sender' qrs' nd'.
    apply reply_after_replied; assumption || reflexivity.
Qed.

End Reply.

End ReplyFacts.

Module ReplyExamples.
Import Context Fixtures ReplyFacts.

Lemma reply_window_and_once_witness :
  reply plain_text post_ok (sample_text_at t19) t19 t19 [MsgStr "hi"] None [] false
  = (Ok tt,
     mkContext (base (sample_text_at t19)) true (attrs (sample_text_at t19)),
     [mkReplyRequest (JStr "nHuyWiB7yP5Zw52FIkcQobQuGDXCTA")
        [JDict [("type", JStr "text"); ("text", JStr "hi"); ("emojis", JNull)]] false])
  /\ raises_CannotReply
       (fst (fst (reply plain_text post_ok (sample_text_at t21) t21 t21
                        [MsgStr "hi"] None [] false))).
Proof.
  split.
  - destruct (reply_window_and_once plain_text post_ok (sample_text_at t19) t19 t19
                [MsgStr "hi"] None [] false
                [JDict [("type", JStr "text"); ("text", JStr "hi"); ("emojis", JNull)]]
                [JDict [("type", JStr "text"); ("text", JStr "hi"); ("emojis", JNull)]]
                (JDict []) eq_refl eq_refl eq_refl eq_refl) as [_ H].
    destruct (H eq_refl) as (Hiff & _ & Hok).
    apply Hok. intros Hc. apply Hiff in Hc.
    destruct Hc as [Hc|[Hc|Hc]]; try discriminate; vm_compute in Hc; discriminate.
  - destruct (reply_window_and_once plain_text post_ok (sample_text_at t21) t21 t21
                [MsgStr "hi"] None [] false
                [JDict [("type", JStr "text"); ("text", JStr "hi"); ("emojis", JNull)]]
                [JDict [("type", JStr "text"); ("text", JStr "hi"); ("emojis", JNull)]]
                (JDict []) eq_refl eq_refl eq_refl eq_refl) as [_ H].
    destruct (H eq_refl) as (Hiff & _ & _).
    apply Hiff. left. vm_compute. reflexivity.
Defined.


Lemma reply_flag_survives_failed_send_witness :
  reply plain_text post_down (sample_text_at t19) t19 t19 [MsgStr "hi"] None [] false
  = (Raise (TransportError "connection refused"),
     mkContext (base (sample_text_at t19)) true (attrs (sample_text_at t19)),
     [mkReplyRequest (JStr "nHuyWiB7yP5Zw52FIkcQobQuGDXCTA")
        [JDict [("type", JStr "text"); ("text", JStr "hi"); ("emojis", JNull)]] false])
  /\ exists msg,
       reply plain_text post_ok
             (mkContext (base (sample_text_at t19)) true (attrs (sample_text_at t19)))
             t19 t19 [MsgStr "again"] None [] false
       = (Raise (CannotReply msg),
          mkContext (base (sample_text_at t19)) true (attrs (sample_text_at t19)), []).
Proof.
  destruct (reply_flag_survives_failed_send plain_text post_down (sample_text_at t19)
              t19 t19 [MsgStr "hi"] None [] false
              [JDict [("type", JStr "text"); ("text", JStr "hi"); ("emojis", JNull)]]
              [JDict [("type", JStr "text"); ("text", JStr "hi"); ("emojis", JNull)]]
              (TransportError "connection refused"))
    as (Hout & _ & Hlater).
  - reflexivity.
  - reflexivity.
  - vm_compute. discriminate.
  - reflexivity.
  - vm_compute. reflexivity.
  - reflexivity.
  - reflexivity.
  - split; [exact Hout|]. apply Hlater.
Defined.

(** C3 (as stated) fails on a context without a reply token: a follow
    event delivered in standby mode decodes to a context whose token is
    [None], and [reply] on it raises [TypeError]. *)
Lemma reply_without_token_is_TypeError :
  exists c,
    FollowContext_init follow_standby_event t0_seconds = Ok c
    /\ _reply_token (base c) = JNull
    /\ fst (fst (reply plain_text post_ok c t0_seconds t0_seconds
                       [MsgStr "hi"] None [] false))
       = Raise (TypeError "Reply error was not provided, check `ctx.state`.")
    /\ ~ raises_CannotReply
           (fst (fst (reply plain_text post_ok c t0_seconds t0_seconds
                            [MsgStr "hi"] None [] false))).
Proof.
  eexists. split; [reflexivity|]. split; [reflexivity|]. split; [reflexivity|].
  intros [msg Hmsg]. discriminate.
Qed.

End ReplyExamples.

(** ** Decoding *)

Module ContextFacts.
Import Context Fixtures.

(** The sticker sample decodes, and the slots of the context hold the
    fields of its message. *)
Lemma sticker_event_decoded now :
  exists b,
    StickerMessageContext_init sticker_event now
    = Ok (mkContext b false
            (StickerMessageContext (JStr "1501597916") (JStr "446") (JStr "1988")
               (JStr "MESSAGE") (JList [JStr "cony"; JStr "sally"])
               (JStr "Let's hang out this weekend!"))).
Proof. eexists. reflexivity. Qed.

Lemma sticker_text_any_depth depth self :
  StickerMessageContext_text depth self = Raise RecursionError.
Proof. induction depth as [|depth IH]; [reflexivity | exact IH]. Qed.

(** C8. Three of the variants do not give back the fields of their
    event.  A member-left event carries its members under [left]; the
    constructor of [MemberLeaveContext] reads [joined], so decoding the
    event raises [KeyError] and there is no context to read [members]
    from.  A sticker event decodes, but the [text] property of the context
    calls itself and ends in [RecursionError] at every recursion limit;
    its neighbours [package_id] and [keywords] return the fields.  And on
    a postback without [params], [data] returns the field but [datetime]
    raises [KeyError] where the absent field should read as [None]. *)
Theorem member_leave_and_sticker_text_defects :
  (forall now,
     getitem member_left_event "left" = Ok (JDict [("members", left_members)])
     /\ MemberLeaveContext_init member_left_event now = Raise (KeyError (JStr "joined")))
  /\ (forall now, exists c,
        StickerMessageContext_init sticker_event now = Ok c
        /\ StickerMessageContext_package_id c = Ok (JStr "446")
        /\ StickerMessageContext_keywords c = Ok (JList [JStr "cony"; JStr "sally"])
        /\ forall depth, StickerMessageContext_text depth c = Raise RecursionError)
  /\ (forall now, exists c,
        PostbackContext_init postback_event now = Ok c
        /\ PostbackContext_data c = Ok (JStr "storeId=12345")
        /\ PostbackContext_datetime c = Raise (KeyError (JStr "params"))).
Proof.
  split; [|split].
  - intros now. split; reflexivity.
  - intros now. eexists. split; [reflexivity|]. split; [reflexivity|].
    split; [reflexivity|]. intros depth. apply sticker_text_any_depth.
  - intros now. eexists. split; [reflexivity|]. split; reflexivity.
Qed.

End ContextFacts.

(** ** Dispatch *)

Module ProcessingFacts.
Import Context Application Processing Fixtures.

Create HintDb keeps.

Lemma keeps_ret {A} (a : A) : keeps (ret a).
Proof. intros w. split; reflexivity. Qed.

Lemma keeps_raise {A} (e : exn) : keeps (@raise A e).
Proof. intros w. split; reflexivity. Qed.

Lemma keeps_lift {A} (r : Res A) : keeps (lift r).
Proof. intros w. split; reflexivity. Qed.

Lemma keeps_mbind {A B} (m : M A) (k : A -> M B) :
  keeps m -> (forall a, keeps (k a)) -> keeps (mbind m k).
Proof.
  intros Hm Hk w. unfold mbind.
  destruct (Hm w) as [H1 H2].
  destruct (m w) as [[a|e] w']; cbn [snd] in *.
  - destruct (Hk a w') as [H3 H4]. split; congruence.
  - split; assumption.
Qed.

Lemma keeps_emit_effect e : keeps (emit_effect e).
Proof. intros w. split; reflexivity. Qed.

Lemma keeps_add_to_cache c : keeps (add_to_cache c).
Proof.
  intros w. unfold add_to_cache.
  destruct (ctx_id c) as [i|e]; [destruct (hashable i)|]; split; reflexivity.
Qed.

Lemma keeps_fulfill_pendings n c : keeps (fulfill_pendings n c).
Proof.
  intros w. unfold fulfill_pendings.
  destruct (pending w !! n); split; reflexivity.
Qed.

#[local] Hint Resolve keeps_ret keeps_raise keeps_lift keeps_mbind
  keeps_emit_effect keeps_add_to_cache keeps_fulfill_pendings : keeps.

Lemma keeps_run_handlers hs c : keeps (run_handlers hs c).
Proof.
  induction hs as [|[h|] hs IH]; cbn [run_handlers]; auto with keeps.
  apply keeps_mbind; [auto with keeps|]. intros _.
  destruct (h_body h c); auto with keeps.
Qed.

Lemma keeps_emit n c : keeps (emit n c).
Proof.
  intros w. unfold emit. destruct (handlers w !! n) as [hs|].
  - apply keeps_run_handlers.
  - split; reflexivity.
Qed.

#[local] Hint Resolve keeps_run_handlers keeps_emit : keeps.

Section Batch.

Variable repr : json -> string.

Lemma keeps_classify ev now ctx : keeps (classify repr ev now ctx).
Proof.
  unfold classify. apply keeps_mbind; [auto with keeps|]. intros ty. cbv zeta.
  repeat match goal with
         | |- keeps (if ?b then _ else _) => destruct b
         end; auto 12 with keeps.
Qed.

Lemma keeps_process_event ev now ctx : keeps (process_event repr ev now ctx).
Proof.
  unfold process_event. apply keeps_mbind; [auto with keeps|]. intros mode.
  apply keeps_mbind; [intros w; split; reflexivity|]. intros [|]; [auto with keeps|].
  apply keeps_mbind; [apply keeps_classify|]. intros r.
  apply keeps_mbind; [destruct (snd r); auto with keeps|]. intros c.
  auto 8 with keeps.
Qed.

Lemma keeps_process_events clock events :
  forall i ctx, keeps (process_events repr clock i events ctx).
Proof.
  induction events as [|ev events IH]; intros i ctx; cbn [process_events].
  - auto with keeps.
  - apply keeps_mbind; [apply keeps_process_event|]. intros c. apply IH.
Qed.

(** The loop on a batch that is cut in two. *)
Lemma process_events_app clock pre rest :
  forall i ctx w,
    process_events repr clock i (pre ++ rest) ctx w
    = match process_events repr clock i pre ctx w with
      | (Ok ctx', w') => process_events repr clock (i + length pre) rest ctx' w'
      | (Raise e, w') => (Raise e, w')
      end.
Proof.
  induction pre as [|ev pre IH]; intros i ctx w; cbn [app process_events length].
  - unfold ret. now rewrite Nat.add_0_r.
  - unfold mbind.
    destruct (process_event repr ev (clock i) ctx w) as [[c|e] w1]; [|reflexivity].
    rewrite IH. now rewrite Nat.add_succ_r.
Qed.

(** An event with a discriminator that is not listed: its pass raises,
    and the world is as it was before the pass. *)
Lemma process_event_unknown ev now ctx w mode e :
  getitem ev "mode" = Ok mode ->
  eq_str mode "standby" && ignore_standby w = false ->
  unknown_discriminator repr ev = Some e ->
  process_event repr ev now ctx w = (Raise e, w).
Proof.
  intros Hmode Hskip Hunk.
  unfold process_event, mbind, lift. rewrite Hmode, Hskip.
  unfold classify, mbind, lift.
  unfold unknown_discriminator in Hunk.
  destruct (getitem ev "type") as [ty|]; [|discriminate].
  destruct (eq_str ty "message") eqn:Emsg.
  { destruct (getitem ev "message") as [msg|]; [|discriminate].
    destruct (getitem msg "type") as [[| | |s| |]|]; try discriminate.
    destruct (existsb (String.eqb s) message_types) eqn:Ek; [discriminate|].
    injection Hunk as <-.
    cbn [existsb message_types] in Ek.
    repeat (apply orb_false_iff in Ek; destruct Ek as [? Ek]).
    unfold finder. repeat match goal with H : String.eqb s _ = false |- _ => rewrite H; clear H end.
    reflexivity. }
  destruct (eq_str ty "things") eqn:Ethings.
  { destruct (getitem ev "things") as [things|]; [|discriminate].
    destruct (getitem things "type") as [[| | |s| |]|]; try discriminate.
    destruct (existsb (String.eqb s) things_types) eqn:Ek; [discriminate|].
    injection Hunk as <-.
    cbn [existsb things_types] in Ek.
    repeat (apply orb_false_iff in Ek; destruct Ek as [? Ek]).
    unfold things_finder.
    repeat match goal with H : String.eqb s _ = false |- _ => rewrite H; clear H end.
    repeat match goal with |- context [if eq_str ty ?l then _ else _] =>
             destruct (eq_str ty l) eqn:?; try discriminate end;
      try reflexivity.
    all: destruct ty; cbn in *; try discriminate;
      repeat match goal with
             | H : String.eqb _ _ = true |- _ => apply String.eqb_eq in H; subst
             end; discriminate. }
  destruct (known_type ty) eqn:Ek; [discriminate|].
  injection Hunk as <-.
  cbn [existsb top_level_types known_type] in Ek.
  repeat (apply orb_false_iff in Ek; destruct Ek as [? Ek]).
  repeat match goal with H : eq_str ty _ = false |- _ => rewrite H; clear H end.
  reflexivity.
Qed.

(** The handlers of a channel run in the order of the list, each on the
    context that [emit] was given; when all of them return, the log grows
    by one invocation per handler, in that order. *)
Lemma run_handlers_in_order hs ctx :
  Forall (fun h => h_body h ctx = None) (omap id hs) ->
  forall w,
    run_handlers hs ctx w
    = (Ok tt, logged (map (fun h => Invoked (h_name h) ctx) (omap id hs)) w).
Proof.
  induction hs as [|[h|] hs IH]; intros Hall w; cbn [run_handlers omap].
  - cbn. unfold logged. rewrite app_nil_r. now destruct w.
  - cbn [omap id option_bind mbind] in *.
    change (omap id (Some h :: hs)) with (h :: omap id hs) in *.
    inversion Hall as [|? ? Hh Hrest]; subst.
    unfold mbind, emit_effect. rewrite Hh.
    rewrite (IH Hrest). unfold logged.
    cbn [handlers pending ignore_standby MESSAGES log headers user map].
    now rewrite <- app_assoc.
  - change (omap id (None :: hs)) with (omap id hs) in *. now apply IH.
Qed.

(** C1 (as amended). An event that is not skipped by the standby rule and
    whose top-level type, or whose type under [message] or [things], is
    not one that [process] lists: its pass raises ([TypeError] for the
    top-level type, [KeyError] for a nested one), and the exception ends
    the loop.  The batch ends exactly as the events before that event
    alone would have left the world, followed by the exception: no
    handler runs for the event, and the events after it are not looked
    at. *)
Theorem unknown_event_aborts_batch clock pre ev post i ctx w mode e :
  getitem ev "mode" = Ok mode ->
  eq_str mode "standby" && ignore_standby w = false ->
  unknown_discriminator repr ev = Some e ->
  process_events repr clock i (pre ++ ev :: post) ctx w
  = match process_events repr clock i pre ctx w with
    | (Ok _, w') => (Raise e, w')
    | (Raise e', w') => (Raise e', w')
    end.
Proof.
  intros Hmode Hskip Hunk. rewrite process_events_app.
  pose proof (keeps_process_events clock pre i ctx w) as [Hflag _].
  destruct (process_events repr clock i pre ctx w) as [[ctx'|e'] w']; [|reflexivity].
  cbn [snd] in Hflag. cbn [process_events]. unfold mbind.
  rewrite (process_event_unknown ev _ ctx' w' mode e); auto.
  now rewrite Hflag.
Qed.

End Batch.

End ProcessingFacts.

Module ProcessingExamples.
Import Context Application Processing Fixtures ProcessingFacts.

Lemma unknown_event_aborts_batch_witness :
  process_events repr_str clock19 0 ([text_event] ++ module_event :: [follow_event])
                 None sample_world
  = match process_events repr_str clock19 0 [text_event] None sample_world with
    | (Ok _, w') => (Raise (TypeError "Unknown event type: 'module'"), w')
    | (Raise e', w') => (Raise e', w')
    end
  /\ process_events repr_str clock19 0 ([text_event] ++ contact_event :: [follow_event])
                    None sample_world
     = match process_events repr_str clock19 0 [text_event] None sample_world with
       | (Ok _, w') => (Raise (KeyError (JStr "contact")), w')
       | (Raise e', w') => (Raise e', w')
       end.
Proof.
  split.
  - apply (unknown_event_aborts_batch repr_str clock19 [text_event] module_event
             [follow_event] 0 None sample_world (JStr "active")); reflexivity.
  - apply (unknown_event_aborts_batch repr_str clock19 [text_event] contact_event
             [follow_event] 0 None sample_world (JStr "active")); reflexivity.
Defined.

(** C1 (as stated) fails: in a batch of a text message, an event of a
    kind that is not listed, and a follow event, only the handler of the
    text message runs; the follow event, which comes after the unknown
    one, is never dispatched. *)
Lemma batch_with_unknown_event_is_cut_short :
  let r := process repr_str (batch [text_event; module_event; follow_event])
                   clock19 sample_world in
  fst r = Raise (TypeError "Unknown event type: 'module'")
  /\ map fst (invocations (log (snd r))) = ["on_text"]
  /\ length (invocations (log (snd r))) <> 2%nat.
Proof.
  cbv zeta. split; [vm_compute; reflexivity|].
  split; [vm_compute; reflexivity|]. vm_compute. discriminate.
Qed.

(** C4. The branches of [videoPlayComplete], [beacon] and [accountLink]
    do not assign the object they build.  In a batch of a text message
    followed by a beacon event, the three beacon handlers run in the order
    A, B, C in which they were registered, but what they receive, and what
    is written into the slot of a waiter on the beacon channel, is the
    context of the text message; the context of the beacon event is built
    and dropped.  A batch that starts with the beacon event stops with
    [UnboundLocalError] before any handler runs. *)
Theorem stale_context_dispatched :
  let w := with_waiter "beacon" "req-1" sample_world in
  let r := process repr_str (batch [text_event; beacon_event]) clock19 w in
  fst r = Ok tt
  /\ invocations (log (snd r))
     = [("on_text", sample_text_at t19); ("A", sample_text_at t19);
        ("B", sample_text_at t19); ("C", sample_text_at t19)]
  /\ slot (pending (snd r)) "beacon" "req-1" = Ok (Some (sample_text_at t19))
  /\ (exists cb,
        BeaconContext_init beacon_event t19 = Ok cb
        /\ attrs cb = BeaconContext (JDict [("hwid", JStr "d41d8cd98f"); ("type", JStr "enter")])
        /\ cb <> sample_text_at t19)
  /\ fst (process repr_str (batch [beacon_event]) clock19 w)
     = Raise (UnboundLocalError "context")
  /\ invocations (log (snd (process repr_str (batch [beacon_event]) clock19 w))) = [].
Proof.
  cbv zeta.
  split; [vm_compute; reflexivity|].
  split; [vm_compute; reflexivity|].
  split; [vm_compute; reflexivity|].
  split.
  - eexists. split; [reflexivity|]. split; [reflexivity|].
    intros H. apply (f_equal attrs) in H. discriminate.
  - split; vm_compute; reflexivity.
Qed.

End ProcessingExamples.

(** ** The signature gate *)

Module WebhookFacts.
Import Context Application Processing Webhook Fixtures.

Lemma bytes_eqb_eq (a b : bytes) : bytes_eqb a b = true <-> a = b.
Proof.
  revert b. induction a as [|x a IH]; intros [|y b]; cbn [bytes_eqb];
    try (split; [discriminate | congruence]); try tauto.
  rewrite andb_true_iff, IH. split.
  - intros [Hx ->]. apply Byte.byte_dec_bl in Hx. now subst.
  - intros H. injection H as -> ->. split; [now apply Byte.byte_dec_lb | reflexivity].
Qed.

Section Route.

Variable hmac_sha256 : bytes -> bytes -> bytes.
Variable b64encode : bytes -> bytes.
Variable encode_utf8 : string -> bytes.
Variable compare_digest : bytes -> bytes -> bool.
Variable json_loads : bytes -> Res json.
Variable repr : json -> string.
Variable dev : bool.

(** The log lines that follow the signature test. *)
Lemma routing_lines_logged n payload w :
  (_ <~ emit_effect (LogRoutingOk n) ;;
   (if dev then emit_effect (LogPayload payload) else ret tt)) w
  = (Ok tt, logged (routing_lines dev n payload) w).
Proof.
  unfold mbind, emit_effect, ret, routing_lines, logged.
  destruct dev; cbn [handlers pending ignore_standby MESSAGES log headers user].
  - now rewrite <- app_assoc.
  - reflexivity.
Qed.

(** A request that passed the signature test and whose body decodes:
    the payload goes to [process], after the log lines and the read of
    the slot [headers], and the answer is the confirmation when [process]
    returns. *)
Lemma accepted_dispatches request clock w payload events n :
  json_loads (body request) = Ok payload ->
  getitem payload "events" = Ok events ->
  len events = Ok n ->
  accepted json_loads repr dev request clock w
  = match headers w with
    | None =>
        (Raise (no_attribute_of_client "headers"), logged (routing_lines dev n payload) w)
    | Some _ =>
        match process repr payload clock (logged (routing_lines dev n payload) w) with
        | (Ok _, w') => (Ok happy_birthday, w')
        | (Raise e, w') => (Raise e, w')
        end
    end.
Proof.
  intros Hload Hev Hlen.
  pose proof (routing_lines_logged n payload w) as Hlines.
  unfold accepted. unfold mbind at 1 2 3. unfold lift. rewrite Hload, Hev, Hlen.
  unfold mbind in Hlines. unfold mbind at 1 2.
  destruct (emit_effect (LogRoutingOk n) w) as [[[]|e] w1]; [|discriminate].
  rewrite Hlines. unfold mbind, get_headers.
  cbn [logged headers]. destruct (headers w) as [hd|]; [|reflexivity].
  destruct (process repr payload clock _) as [[[]|e] w2]; reflexivity.
Qed.

(** Whatever the accepted part of the route returns is the confirmation,
    never the rejection. *)
Lemma accepted_response request clock w r w' :
  accepted json_loads repr dev request clock w = (Ok r, w') -> r = happy_birthday.
Proof.
  destruct (json_loads (body request)) as [payload|e] eqn:Hload;
    [|unfold accepted, mbind, lift; rewrite Hload; discriminate].
  destruct (getitem payload "events") as [events|e] eqn:Hev;
    [|unfold accepted, mbind, lift; rewrite Hload, Hev; discriminate].
  destruct (len events) as [n|e] eqn:Hlen;
    [|unfold accepted, mbind, lift; rewrite Hload, Hev, Hlen; discriminate].
  rewrite (accepted_dispatches request clock w payload events n Hload Hev Hlen).
  destruct (headers w); [|discriminate].
  destruct (process repr payload clock _) as [[[]|e] w2]; [|discriminate].
  now intros [= <- _].
Qed.

(** C2. The route compares the bytes of the [X-Line-Signature] header,
    or of the empty string when there is none, with the base64 encoding
    of the HMAC-SHA256 of the raw body under the channel secret, and it
    does so by one call of [hmac.compare_digest], the constant-time
    comparison of the library: the answer of that call decides alone,
    whatever function the library provides.  When the answer is no, the
    route answers 400 with the message [invalid webhook] and leaves the
    client as it was but for one log line, whatever the body is, so
    nothing is decoded, no slot is written, nothing is cached and no
    handler runs.  When the answer is yes, the body is decoded: a body
    that does not decode raises, and a payload that does is handed to
    [process] after the log lines, on a client whose slot [headers] is
    set, as [run] sets it; the answer is then 200 with [happy birthday]
    when [process] returns, and the exception of [process] otherwise.
    And as [compare_digest] answers whether its two arguments are equal,
    the request is accepted exactly when the bytes of the header equal
    the expected signature. *)
Theorem signature_gate channel_secret request clock w :
  let claimed := encode_utf8 (default "" (x_line_signature request)) in
  let expected :=
    b64encode (hmac_sha256 (encode_utf8 channel_secret) (body request)) in
  let out := webhook hmac_sha256 b64encode encode_utf8 compare_digest json_loads repr
                     dev channel_secret request clock w in
  let answer_400 := mkResponse 400 (JDict [("message", JStr "invalid webhook")]) in
  let answer_200 := mkResponse 200 (JDict [("message", JStr "happy birthday")]) in
  (compare_digest claimed expected = false ->
   out = (Ok answer_400, logged [LogRoutingFail] w))
  /\ (compare_digest claimed expected = true ->
      fst out <> Ok answer_400
      /\ (forall e, json_loads (body request) = Raise e -> out = (Raise e, w))
      /\ (forall payload events n,
            json_loads (body request) = Ok payload ->
            getitem payload "events" = Ok events ->
            len events = Ok n ->
            out = match headers w with
                  | None =>
                      (Raise (no_attribute_of_client "headers"),
                       logged (routing_lines dev n payload) w)
                  | Some _ =>
                      match process repr payload clock
                              (logged (routing_lines dev n payload) w) with
                      | (Ok _, w') => (Ok answer_200, w')
                      | (Raise e, w') => (Raise e, w')
                      end
                  end))
  /\ ((forall a b, compare_digest a b = true <-> a = b) ->
      (claimed = expected <-> fst out <> Ok answer_400)
      /\ (claimed <> expected <-> out = (Ok answer_400, logged [LogRoutingFail] w))).
Proof.
  cbv zeta.
  unfold webhook, valid_signature, line_signature.
  destruct (compare_digest (encode_utf8 (default "" (x_line_signature request)))
              (b64encode (hmac_sha256 (encode_utf8 channel_secret) (body request))))
    eqn:E; cbn [negb].
  - assert (Hanswer : fst (accepted json_loads repr dev request clock w)
                      <> Ok (mkResponse 400 (JDict [("message", JStr "invalid webhook")]))).
    { intros H.
      destruct (accepted json_loads repr dev request clock w) as [[r|e] w'] eqn:Ea;
        cbn [fst] in H; [|discriminate].
      apply accepted_response in Ea. subst r. discriminate. }
    split; [discriminate|]. split.
    + intros _. split; [exact Hanswer|]. split.
      * intros e Hload. unfold accepted, mbind, lift. now rewrite Hload.
      * intros payload events n Hload Hev Hlen.
        apply (accepted_dispatches request clock w payload events n Hload Hev Hlen).
    + intros Hcmp. pose proof (proj1 (Hcmp _ _) E) as Heq. split.
      * split; [intros _; exact Hanswer | intros _; exact Heq].
      * split; [contradiction|]. intros H. rewrite H in Hanswer. now destruct Hanswer.
  - unfold mbind, emit_effect, ret.
    split; [reflexivity|]. split; [discriminate|].
    intros Hcmp.
    assert (Hne : encode_utf8 (default "" (x_line_signature request))
                  <> b64encode (hmac_sha256 (encode_utf8 channel_secret) (body request))).
    { intros H. apply Hcmp in H. congruence. }
    split.
    + split; [contradiction|]. intros H. now destruct H.
    + split; [reflexivity | intros _; exact Hne].
Qed.

End Route.

(** Two requests with the same body on a client that [run] has started:
    one whose header is not the expected signature, and one whose header
    is. *)
Lemma signature_gate_witness :
  let route request :=
    webhook toy_hmac toy_b64encode toy_encode bytes_eqb
            (fun _ => Ok (batch [text_event])) repr_str true
            "s3cr3t" request clock19 (running sample_world) in
  route (mkRequest [] (Some "forged"))
  = (Ok (mkResponse 400 (JDict [("message", JStr "invalid webhook")])),
     logged [LogRoutingFail] (running sample_world))
  /\ fst (route (mkRequest [] (Some "s3cr3t")))
     = Ok (mkResponse 200 (JDict [("message", JStr "happy birthday")]))
  /\ map fst (invocations (log (snd (route (mkRequest [] (Some "s3cr3t"))))))
     = ["on_text"]
  /\ fst (route (mkRequest [] None))
     = Ok (mkResponse 400 (JDict [("message", JStr "invalid webhook")])).
Proof.
  cbv zeta.
  destruct (signature_gate toy_hmac toy_b64encode toy_encode bytes_eqb
              (fun _ => Ok (batch [text_event])) repr_str true
              "s3cr3t" (mkRequest [] (Some "forged")) clock19 (running sample_world))
    as (Hforged & _ & _).
  destruct (signature_gate toy_hmac toy_b64encode toy_encode bytes_eqb
              (fun _ => Ok (batch [text_event])) repr_str true
              "s3cr3t" (mkRequest [] (Some "s3cr3t")) clock19 (running sample_world))
    as (_ & Hsigned & _).
  destruct (signature_gate toy_hmac toy_b64encode toy_encode bytes_eqb
              (fun _ => Ok (batch [text_event])) repr_str true
              "s3cr3t" (mkRequest [] None) clock19 (running sample_world))
    as (_ & _ & Hnone).
  split; [apply Hforged; vm_compute; reflexivity|].
  destruct (Hsigned eq_refl) as (_ & _ & Hdispatch).
  rewrite (Hdispatch (batch [text_event]) (JList [text_event]) 1%nat);
    try reflexivity.
  split; [vm_compute; reflexivity|]. split; [vm_compute; reflexivity|].
  destruct (Hnone bytes_eqb_eq) as [_ Hreject].
  rewrite (proj1 Hreject); [reflexivity|]. vm_compute. discriminate.
Defined.

End WebhookFacts.

(** ** The rate limiter, further *)

Module RateLimitingMore.
Import RateLimiting.

(** A call that comes when the window opened by [first_call] is over and
    no deadline is recorded: it returns at once, whatever the counter. *)
Lemma call_after_window fuel self now st :
  num_truthy (wait_end st) = false ->
  num_truthy (first_call st) = true ->
  (per self <= now - first_call st)%Q ->
  call fuel self now st
  = Some (mkStatus (first_call st) (s_calls st + 1) (wait_end st), 0%Q).
Proof.
  intros Hw Hf Hper.
  assert (Hlt : Qltb (now - first_call st) (per self) = false).
  { destruct (Qltb (now - first_call st) (per self)) eqn:E; [|reflexivity].
    apply Qltb_lt in E. exfalso. apply (Qlt_not_le _ _ E Hper). }
  destruct fuel; cbn [call]; unfold call_begin; rewrite Hw, Hf;
    cbn [negb s_calls first_call]; rewrite Hlt, andb_false_r; reflexivity.
Qed.

(** X1. Once the window that the first call opened has passed without a
    suspension, the limiter no longer limits: [first_call] is never
    renewed, so every later call finds the window over, returns at once
    and only adds to the counter, however many calls follow and however
    close together they are. *)
Theorem limiter_idle_after_first_window fuel self times :
  forall st,
    num_truthy (wait_end st) = false ->
    num_truthy (first_call st) = true ->
    Forall (fun t => per self <= t - first_call st)%Q times ->
    run_calls fuel (on_bucket self times) st
    = Some (repeat 0%Q (length times),
            mkStatus (first_call st) (s_calls st + Z.of_nat (length times))
                     (wait_end st)).
Proof.
  induction times as [|t times IH]; intros st Hw Hf Hall.
  - cbn. rewrite Z.add_0_r. now destruct st.
  - inversion Hall as [|? ? Ht Hrest]; subst.
    cbn [on_bucket map run_calls]. fold (on_bucket self times).
    rewrite (call_after_window fuel self t st Hw Hf Ht).
    rewrite (IH (mkStatus (first_call st) (s_calls st + 1) (wait_end st)) Hw Hf Hrest).
    cbn [first_call s_calls wait_end length repeat].
    rewrite Nat2Z.inj_succ. do 3 f_equal. lia.
Qed.

Lemma limiter_idle_after_first_window_witness :
  run_calls 0 (on_bucket replace_unlink_rich_menu (seconds_from 4600 5))
            (mkStatus 1000 1 0)
  = Some ([0%Q; 0%Q; 0%Q; 0%Q; 0%Q], mkStatus 1000 6 0).
Proof.
  apply (limiter_idle_after_first_window 0 replace_unlink_rich_menu
           (seconds_from 4600 5) (mkStatus 1000 1 0)).
  - reflexivity.
  - reflexivity.
  - repeat constructor; vm_compute; discriminate.
Defined.

(** X2. A call that finds a deadline recorded sleeps for
    [now - wait_end]: while the deadline is still ahead that is no time at
    all, the status is left as it is, and the call starts over.  Once the
    sleeping call has reset the status, the call that starts over is the
    first call of a fresh bucket and proceeds at once. *)
Theorem waiter_does_not_sleep_until_deadline self now st :
  num_truthy (wait_end st) = true ->
  (now <= wait_end st)%Q ->
  call_begin self now st = SleepRetry (now - wait_end st) st
  /\ sleep_time (now - wait_end st) = 0%Q
  /\ forall fuel later,
       call fuel self later (call_reset st) = Some (mkStatus later 1 0, 0%Q).
Proof.
  intros Hw Hle. split; [|split].
  - unfold call_begin. now rewrite Hw.
  - unfold sleep_time.
    replace (Qle_bool (now - wait_end st) 0) with true; [reflexivity|].
    symmetry. apply Qle_bool_iff. lra.
  - intros fuel later. destruct fuel; reflexivity.
Qed.

Lemma waiter_does_not_sleep_until_deadline_witness :
  call_begin Http.rr_getUser 1061 (mkStatus 1000 61 4660.1)
  = SleepRetry (1061 - 4660.1) (mkStatus 1000 61 4660.1)
  /\ sleep_time (1061 - 4660.1) = 0%Q
  /\ call 0 Http.rr_getUser 4661 (call_reset (mkStatus 1000 61 4660.1))
     = Some (mkStatus 4661 1 0, 0%Q).
Proof.
  destruct (waiter_does_not_sleep_until_deadline Http.rr_getUser 1061
              (mkStatus 1000 61 4660.1)) as (H1 & H2 & H3).
  - reflexivity.
  - vm_compute. discriminate.
  - split; [exact H1|]. split; [exact H2|]. apply H3.
Defined.

End RateLimitingMore.

(** ** Waiting for an event, further *)

Module WaitForMore.
Import Context Application.

Lemma elapsed_after_eq n :
  (elapsed_after n == inject_Z (Z.of_nat n) * 0.01)%Q.
Proof.
  unfold elapsed_after. induction n as [|n IH].
  - reflexivity.
  - rewrite Nat.iter_succ.
    rewrite Nat2Z.inj_succ. unfold Z.succ. rewrite inject_Z_plus.
    change (inject_Z 1) with 1%Q. lra.
Qed.

Lemma timed_out_before_deadline timeout n :
  before_deadline timeout n -> timed_out timeout (elapsed_after n) = false.
Proof.
  destruct timeout as [t|]; [|reflexivity]. cbn [before_deadline timed_out].
  intros [->|Hlt]; [reflexivity|].
  apply andb_false_iff. right.
  destruct (Qle_bool (inject_Z t) (elapsed_after n)) eqn:E; [|reflexivity].
  apply Qle_bool_iff in E. rewrite elapsed_after_eq in E. exfalso.
  assert (H : (inject_Z (Z.of_nat n) < inject_Z (100 * t))%Q) by now rewrite <- Zlt_Qlt.
  rewrite inject_Z_mult in H. change (inject_Z 100) with 100%Q in H. lra.
Qed.

Lemma before_deadline_le timeout n n' :
  (n' <= n)%nat -> before_deadline timeout n -> before_deadline timeout n'.
Proof.
  destruct timeout as [t|]; [|trivial]. cbn. intros Hle [->|H]; [now left|right; lia].
Qed.

Section Loop.

Variable check : Context -> bool.
Variable timeout : option Z.
Variables name _id : string.
Variable others : nat -> Pending -> Pending.

(** Passes that find the slot empty while the other tasks leave the map
    alone and the timeout does not strike: each is one sleep. *)
Lemma wait_for_loop_idle_passes (p : Pending) :
  slot p name _id = Ok None ->
  forall n fuel i,
    (forall j, (i <= j < i + n)%nat -> others j p = p) ->
    before_deadline timeout (i + n) ->
    wait_for_loop check timeout name _id others (n + fuel) i (elapsed_after i) p
    = wait_for_loop check timeout name _id others fuel (i + n) (elapsed_after (i + n)) p.
Proof.
  intros Hslot n. induction n as [|n IH]; intros fuel i Hid Hbefore.
  - now rewrite Nat.add_0_r.
  - cbn [Nat.add wait_for_loop]. rewrite Hslot. cbv zeta.
    rewrite (Hid i) by lia.
    change (elapsed_after i + 0.01)%Q with (elapsed_after (S i)).
    rewrite timed_out_before_deadline
      by (apply (before_deadline_le timeout (i + S n)); [lia | exact Hbefore]).
    rewrite (IH fuel (S i)).
    + now rewrite Nat.add_succ_r.
    + intros j Hj. apply Hid. lia.
    + now rewrite Nat.add_succ_r in Hbefore.
Qed.

End Loop.

Section Dispatch.

Variable check : Context -> bool.
Variables name _id : string.
Variable c : Context.
Variable k : nat.

(** From the call to the pass that follows the dispatch: [k] idle passes,
    and the pass during whose sleep the context is written. *)
Lemma wait_for_until_dispatch timeout (p : Pending) (m : gmap string (option Context)) fuel :
  p !! name = Some m ->
  before_deadline timeout (k + 1) ->
  wait_for check timeout name _id (dispatch_during k name c) (k + 1 + fuel) p
  = wait_for_loop check timeout name _id (dispatch_during k name c) fuel
      (k + 1) (elapsed_after (k + 1))
      (<[name := <[_id := Some c]> ((fun _ => Some c) <$> m)]> p).
Proof.
  intros Hm Hbefore. unfold wait_for. rewrite Hm.
  set (p1 := <[name := <[_id := None]> m]> p).
  assert (Hslot : slot p1 name _id = Ok None).
  { unfold slot, p1. rewrite lookup_insert_eq. now rewrite lookup_insert_eq. }
  rewrite <- Nat.add_assoc.
  change 0%Q with (elapsed_after 0).
  rewrite (wait_for_loop_idle_passes check timeout name _id _ p1 Hslot k (1 + fuel) 0%nat).
  - cbn [Nat.add wait_for_loop]. rewrite Hslot. cbv zeta.
    change (elapsed_after k + 0.01)%Q with (elapsed_after (S k)).
    rewrite timed_out_before_deadline
      by (now replace (S k) with (k + 1)%nat by lia).
    replace (dispatch_during k name c k p1) with (fulfilled name c p1)
      by (unfold dispatch_during; now rewrite Nat.eqb_refl).
    replace (S k) with (k + 1)%nat by lia.
    f_equal. unfold fulfilled, p1. rewrite lookup_insert_eq.
    rewrite insert_insert_eq. now rewrite fmap_insert.
  - intros j Hj. unfold dispatch_during.
    replace (j =? k)%nat with false by (symmetry; apply Nat.eqb_neq; lia).
    reflexivity.
  - cbn [Nat.add]. apply (before_deadline_le timeout (k + 1)); [lia | exact Hbefore].
Qed.

(** X3. A waiter with an entry on a channel, one event of the channel
    dispatched during the waiter's [k]-th sleep, a predicate that accepts
    the context, and no timeout within [k + 2] sleeps: the call returns
    that context after [k + 2] passes, the waiter's entry is gone from
    the pending map, and the other slots of the channel hold the context
    as the dispatcher wrote it. *)
Theorem wait_for_returns_dispatched timeout (p : Pending)
    (m : gmap string (option Context)) fuel :
  p !! name = Some m ->
  check c = true ->
  before_deadline timeout (k + 2) ->
  (k + 2 <= fuel)%nat ->
  wait_for check timeout name _id (dispatch_during k name c) fuel p
  = Some (Ok c, <[name := delete _id ((fun _ => Some c) <$> m)]> p).
Proof.
  intros Hm Hcheck Hbefore Hfuel.
  replace fuel with (k + 1 + S (fuel - (k + 2)))%nat by lia.
  rewrite (wait_for_until_dispatch timeout p m _ Hm)
    by (apply (before_deadline_le timeout (k + 2)); [lia | exact Hbefore]).
  set (p2 := <[name := <[_id := Some c]> ((fun _ => Some c) <$> m)]> p).
  assert (Hslot : slot p2 name _id = Ok (Some c)).
  { unfold slot, p2. rewrite lookup_insert_eq. now rewrite lookup_insert_eq. }
  cbn [wait_for_loop]. rewrite Hslot, Hcheck. cbn [negb]. cbv zeta.
  change (elapsed_after (k + 1) + 0.01)%Q with (elapsed_after (S (k + 1))).
  rewrite timed_out_before_deadline
    by (now replace (S (k + 1)) with (k + 2)%nat by lia).
  replace (dispatch_during k name c (k + 1) p2) with p2
    by (unfold dispatch_during;
        now replace (k + 1 =? k)%nat with false by (symmetry; apply Nat.eqb_neq; lia)).
  unfold del_slot, p2. rewrite lookup_insert_eq. rewrite lookup_insert_eq.
  rewrite insert_insert_eq. now rewrite delete_insert_eq.
Qed.

End Dispatch.

(** X5. A timeout of zero counts as no timeout: with [timeout=0], as with
    [timeout=None], a waiter on a channel where nothing is dispatched
    sleeps forever. *)
Theorem wait_for_zero_timeout_never_strikes check timeout name _id (p : Pending)
    (m : gmap string (option Context)) :
  timeout = None \/ timeout = Some 0%Z ->
  p !! name = Some m ->
  forall fuel, wait_for check timeout name _id (fun _ q => q) fuel p = None.
Proof.
  intros Hto Hm fuel. unfold wait_for. rewrite Hm.
  assert (Hslot : slot (<[name := <[_id := None]> m]> p) name _id = Ok None).
  { unfold slot. rewrite lookup_insert_eq. now rewrite lookup_insert_eq. }
  assert (Hno : forall e, timed_out timeout e = false)
    by (intros e; destruct Hto as [-> | ->]; reflexivity).
  generalize 0%nat as i, 0%Q as elapsed.
  induction fuel as [|fuel IH]; intros i elapsed; cbn [wait_for_loop]; [reflexivity|].
  rewrite Hslot. cbv zeta. rewrite Hno. apply IH.
Qed.

(** X6. Registering a handler under a new name makes the name known to
    [emit] and not to [wait_for]: [listen] and [event] add to [handlers]
    only, so after any registrations the pending map still has exactly
    the channels of the class body, and waiting on any other name raises
    [KeyError] at once. *)
Theorem wait_for_knows_only_builtin_channels hs ignore name h check timeout _id others fuel :
  ~ In name channel_names ->
  let w := listen_all (hs ++ [(name, h)]) (world0 ignore) in
  (exists registered, handlers w !! name = Some registered /\ In (Some h) registered)
  /\ pending w = pending0
  /\ wait_for check timeout name _id others fuel (pending w)
     = Some (Raise (KeyError (JStr name)), pending w).
Proof.
  intros Hname w.
  assert (Hpending : forall l w0, pending (listen_all l w0) = pending w0).
  { induction l as [|[n0 h0] l IH]; intros w0; cbn; [reflexivity|]. now rewrite IH. }
  split; [|split].
  - unfold w, listen_all. rewrite fold_left_app. cbn [fold_left fst snd listen handlers].
    eexists. rewrite lookup_insert_eq. split; [reflexivity|].
    apply in_or_app. right. now left.
  - unfold w. now rewrite Hpending.
  - unfold w. rewrite Hpending. cbn [world0 pending]. unfold wait_for.
    replace (pending0 !! name) with (@None (gmap string (option Context))); [reflexivity|].
    symmetry. unfold pending0. apply not_elem_of_list_to_map_1.
    intros Hin. apply list_elem_of_fmap in Hin as ([n0 v] & -> & Hin).
    apply list_elem_of_In, in_map_iff in Hin as (n1 & [= <- _] & Hin).
    now apply Hname.
Qed.

(** X7. The dispatcher's write reaches every slot of the channel,
    whatever the slot held (an earlier context that its waiter has not
    read yet is overwritten), creates no slot, and leaves the other
    channels alone. *)
Theorem fulfilled_reaches_every_waiter name c (p : Pending)
    (m : gmap string (option Context)) :
  p !! name = Some m ->
  (forall _id v, m !! _id = Some v -> slot (fulfilled name c p) name _id = Ok (Some c))
  /\ (forall _id, m !! _id = None ->
        slot (fulfilled name c p) name _id = Raise (KeyError (JStr _id)))
  /\ (forall other, other <> name -> fulfilled name c p !! other = p !! other).
Proof.
  intros Hm. unfold fulfilled. rewrite Hm. split; [|split].
  - intros _id v Hv. unfold slot. rewrite lookup_insert_eq, lookup_fmap, Hv. reflexivity.
  - intros _id Hv. unfold slot. rewrite lookup_insert_eq, lookup_fmap, Hv. reflexivity.
  - intros other Hne. now rewrite lookup_insert_ne.
Qed.

End WaitForMore.

Module WaitForMoreExamples.
Import Context Application Fixtures WaitForMore.

Lemma wait_for_returns_dispatched_witness :
  wait_for (fun _ => true) (Some 1%Z) "text" "req-1"
           (dispatch_during 3 "text" sample_text) 5 pending0
  = Some (Ok sample_text,
          <["text" := delete "req-1"
                        ((fun _ : option Context => Some sample_text)
                           <$> (∅ : gmap string (option Context)))]> pending0).
Proof.
  apply (wait_for_returns_dispatched (fun _ => true) "text" "req-1" sample_text 3
           (Some 1%Z) pending0 ∅ 5).
  - vm_compute. reflexivity.
  - reflexivity.
  - cbn. right. lia.
  - lia.
Defined.

Lemma wait_for_zero_timeout_never_strikes_witness :
  wait_for (fun _ => true) (Some 0%Z) "text" "req-1" (fun _ q => q) 5000 pending0 = None.
Proof.
  apply (wait_for_zero_timeout_never_strikes (fun _ => true) (Some 0%Z) "text" "req-1"
           pending0 ∅).
  - now right.
  - vm_compute. reflexivity.
Defined.

Lemma wait_for_knows_only_builtin_channels_witness :
  let w := listen_all ([] ++ [("custom_event", logging_handler "on_custom_event")])
                      (world0 true) in
  pending w = pending0
  /\ wait_for (fun _ => true) None "custom_event" "req-1" (fun _ q => q) 10 (pending w)
     = Some (Raise (KeyError (JStr "custom_event")), pending w).
Proof.
  intros w.
  destruct (wait_for_knows_only_builtin_channels [] true "custom_event"
              (logging_handler "on_custom_event") (fun _ => true) None "req-1"
              (fun _ q => q) 10) as (_ & Hp & Hw).
  - vm_compute. intros H. repeat (destruct H as [H|H]; [discriminate|]). exact H.
  - split; [exact Hp | exact Hw].
Defined.

Lemma fulfilled_reaches_every_waiter_witness :
  let p : Pending := <["text" := {["req-1" := Some sample_text]}]> pending0 in
  slot (fulfilled "text" (sample_text_at t19) p) "text" "req-1"
  = Ok (Some (sample_text_at t19))
  /\ fulfilled "text" (sample_text_at t19) p !! "beacon" = p !! "beacon".
Proof.
  intros p.
  destruct (fulfilled_reaches_every_waiter "text" (sample_text_at t19) p
              {["req-1" := Some sample_text]}) as (H1 & _ & H3).
  - unfold p. apply lookup_insert_eq.
  - split.
    + apply (H1 "req-1" (Some sample_text)). apply lookup_singleton_eq.
    + apply H3. discriminate.
Defined.

End WaitForMoreExamples.

(** ** Registration and dispatch, further *)

Module DispatchMore.
Import Context Application Processing.

Lemma listen_all_cons n h hs w :
  listen_all ((n, h) :: hs) w = listen_all hs (listen n h w).
Proof. reflexivity. Qed.


Lemma pending_listen_all hs w : pending (listen_all hs w) = pending w.
Proof.
  revert w. induction hs as [|[n h] hs IH]; intros w; [reflexivity|].
  rewrite listen_all_cons. now rewrite IH.
Qed.

Lemma log_listen_all hs w : log (listen_all hs w) = log w.
Proof.
  revert w. induction hs as [|[n h] hs IH]; intros w; [reflexivity|].
  rewrite listen_all_cons. now rewrite IH.
Qed.

(** The registry of a client that has just been constructed. *)
Lemma handlers0_lookup name :
  handlers0 !! name = if existsb (String.eqb name) channel_names then Some [] else None.
Proof.
  destruct (existsb (String.eqb name) channel_names) eqn:E.
  - apply existsb_exists in E as (n & Hin & Hn). apply String.eqb_eq in Hn. subst n.
    unfold handlers0. apply elem_of_list_to_map_1'.
    + intros y Hy. apply list_elem_of_In, in_map_iff in Hy as (n1 & [= _ <-] & _).
      reflexivity.
    + apply list_elem_of_In, in_map_iff. now exists name.
  - unfold handlers0. apply not_elem_of_list_to_map_1.
    intros Hin. apply list_elem_of_fmap in Hin as ([n0 v] & -> & Hin).
    apply list_elem_of_In, in_map_iff in Hin as (n1 & [= <- _] & Hin).
    cbn [fst] in E.
    assert (existsb (String.eqb n1) channel_names = true); [|congruence].
    apply existsb_exists. exists n1. split; [exact Hin | apply String.eqb_refl].
Qed.



(** A run that reaches a handler that raises. *)
Lemma run_handlers_raising hs1 h hs2 ctx e :
  Forall (fun h => h_body h ctx = None) hs1 ->
  h_body h ctx = Some e ->
  forall w,
    run_handlers (map Some hs1 ++ Some h :: hs2) ctx w
    = (Raise e, logged (invoked hs1 ctx ++ [Invoked (h_name h) ctx]) w).
Proof.
  induction hs1 as [|h1 hs1 IH]; intros Hall He w; cbn [map app run_handlers invoked].
  - unfold mbind, emit_effect, raise. now rewrite He.
  - inversion Hall as [|? ? Hh Hrest]; subst.
    unfold mbind, emit_effect. rewrite Hh. rewrite (IH Hrest He).
    unfold logged. cbn [handlers pending ignore_standby MESSAGES log headers user app].
    now rewrite <- app_assoc.
Qed.

(** X9. A handler that raises ends the dispatch of the event.  With
    handlers that leave the client alone: the handlers registered before
    it on the channel are started in order, then it is started, its
    exception comes out of [emit], and the handlers registered after it
    are not started. *)
Theorem emit_stops_at_raising_handler name ctx w hs1 h hs2 e :
  handlers w !! name = Some (map Some hs1 ++ Some h :: hs2) ->
  Forall (fun h => h_body h ctx = None) hs1 ->
  h_body h ctx = Some e ->
  fst (emit name ctx w) = Raise e
  /\ log (snd (emit name ctx w))
     = log w ++ invoked hs1 ctx ++ [Invoked (h_name h) ctx].
Proof.
  intros Hw Hall He. unfold emit. rewrite Hw.
  rewrite (run_handlers_raising hs1 h hs2 ctx e Hall He). split; reflexivity.
Qed.

End DispatchMore.

(** ** The batch loop, further *)

Module ProcessingMore.
Import Context Application Processing.

Lemma frames_ret {A} (a : A) : frames (ret a).
Proof. intros w. repeat split. Qed.

Lemma frames_raise {A} (e : exn) : frames (@raise A e).
Proof. intros w. repeat split. Qed.

Lemma frames_lift {A} (r : Res A) : frames (lift r).
Proof. intros w. repeat split. Qed.

Lemma frames_mbind {A B} (m : M A) (k : A -> M B) :
  frames m -> (forall a, frames (k a)) -> frames (mbind m k).
Proof.
  intros Hm Hk w. unfold mbind.
  destruct (Hm w) as (H1 & H2 & H3).
  destruct (m w) as [[a|e] w']; cbn [snd] in *.
  - destruct (Hk a w') as (H4 & H5 & H6).
    split; [congruence|]. split; [congruence|].
    intros name. now rewrite H6.
  - split; [assumption|]. split; assumption.
Qed.

Lemma frames_emit_effect e : frames (emit_effect e).
Proof. intros w. repeat split. Qed.

Lemma frames_add_to_cache c : frames (add_to_cache c).
Proof.
  intros w. unfold add_to_cache.
  destruct (ctx_id c) as [i|e]; [destruct (hashable i)|]; repeat split.
Qed.

Lemma frames_fulfill_pendings n c : frames (fulfill_pendings n c).
Proof.
  intros w. unfold fulfill_pendings, fulfilled.
  destruct (pending w !! n) as [m|] eqn:E; cbn [snd handlers ignore_standby pending];
    (split; [reflexivity|]); (split; [reflexivity|]); [|reflexivity].
  intros name. destruct (decide (n = name)) as [->|Hne].
  - rewrite lookup_insert_eq, E. cbn. now rewrite dom_fmap_L.
  - now rewrite lookup_insert_ne.
Qed.

Lemma frames_get_user_basic_id : frames get_user_basic_id.
Proof. intros w. unfold get_user_basic_id. destruct (user w); repeat split. Qed.

Create HintDb frames.

#[local] Hint Resolve frames_ret frames_raise frames_lift frames_mbind
  frames_emit_effect frames_add_to_cache frames_fulfill_pendings
  frames_get_user_basic_id : frames.

(** On a client without handlers. *)
Lemma frames_relax {A} (m : M A) : frames m -> frames_without_handlers m.
Proof. intros Hm w _. apply Hm. Qed.

Lemma frames_without_handlers_mbind {A B} (m : M A) (k : A -> M B) :
  frames_without_handlers m ->
  (forall a, frames_without_handlers (k a)) ->
  frames_without_handlers (mbind m k).
Proof.
  intros Hm Hk w Hw. unfold mbind.
  destruct (Hm w Hw) as (H1 & H2 & H3).
  destruct (m w) as [[a|e] w']; cbn [snd] in *.
  - assert (Hw' : no_handlers w') by (unfold no_handlers; now rewrite H1).
    destruct (Hk a w' Hw') as (H4 & H5 & H6).
    split; [congruence|]. split; [congruence|].
    intros name. now rewrite H6.
  - split; [assumption|]. split; assumption.
Qed.

(** With no handler on the channel, [emit] returns at once; on a name
    that has no list it raises. *)
Lemma frames_without_handlers_emit n c : frames_without_handlers (emit n c).
Proof.
  intros w Hw. unfold emit. destruct (handlers w !! n) as [hs|] eqn:E.
  - rewrite (Hw n hs E). repeat split.
  - repeat split.
Qed.

Section Batch.

Variable repr : json -> string.

Lemma frames_classify ev now ctx : frames (classify repr ev now ctx).
Proof.
  unfold classify. apply frames_mbind; [auto with frames|]. intros ty. cbv zeta.
  repeat match goal with
         | |- frames (if ?b then _ else _) => destruct b
         end; auto 12 with frames.
Qed.

Lemma frames_without_handlers_process_event ev now ctx :
  frames_without_handlers (process_event repr ev now ctx).
Proof.
  unfold process_event.
  apply frames_without_handlers_mbind; [apply frames_relax; auto with frames|].
  intros mode.
  apply frames_without_handlers_mbind; [intros w _; repeat split|].
  intros [|]; [apply frames_relax; auto with frames|].
  apply frames_without_handlers_mbind; [apply frames_relax, frames_classify|]. intros r.
  apply frames_without_handlers_mbind;
    [apply frames_relax; destruct (snd r); auto with frames|].
  intros c.
  apply frames_without_handlers_mbind; [apply frames_relax; auto with frames|]. intros _.
  apply frames_without_handlers_mbind; [apply frames_without_handlers_emit|]. intros _.
  apply frames_relax; auto with frames.
Qed.

Lemma frames_without_handlers_process_events clock events :
  forall i ctx, frames_without_handlers (process_events repr clock i events ctx).
Proof.
  induction events as [|ev events IH]; intros i ctx; cbn [process_events].
  - apply frames_relax; auto with frames.
  - apply frames_without_handlers_mbind;
      [apply frames_without_handlers_process_event|].
    intros c. apply IH.
Qed.

(** X10. What [process] itself does to the client.  On a client on which
    no handler is registered, so that no code but that of [process] runs,
    whatever the payload and however the run ends: no handler is
    registered or removed, the standby flag is not touched, and no
    channel and no slot of the pending map is created or removed; the
    values of the slots that waiters have made are all that [process]
    writes there. *)
Theorem process_keeps_registry_and_slots payload clock w :
  no_handlers w ->
  let w' := snd (process repr payload clock w) in
  handlers w' = handlers w
  /\ ignore_standby w' = ignore_standby w
  /\ forall name, dom <$> (pending w' !! name) = dom <$> (pending w !! name).
Proof.
  intros Hw. cbv zeta. revert w Hw.
  change (frames_without_handlers (process repr payload clock)).
  unfold process.
  apply frames_without_handlers_mbind; [apply frames_relax; auto with frames|].
  intros events.
  destruct (negb (truthy events)); [apply frames_relax; auto with frames|].
  destruct events; try (apply frames_relax; solve [auto with frames]).
  apply frames_without_handlers_mbind;
    [apply frames_without_handlers_process_events | intros _; apply frames_relax;
                                                    auto with frames].
Qed.

(** X11. With [ignore_standby] set, an event whose mode is [standby] is
    passed over before anything else of it is read: a batch of such
    events leaves the world and the local [context] as they were,
    whatever their type and their other fields, also when these are
    missing or not listed. *)
Theorem standby_events_are_passed_over clock events :
  forall i ctx w,
    ignore_standby w = true ->
    Forall (fun ev => getitem ev "mode" = Ok (JStr "standby")) events ->
    process_events repr clock i events ctx w = (Ok ctx, w).
Proof.
  induction events as [|ev events IH]; intros i ctx w Hflag Hall; cbn [process_events].
  - reflexivity.
  - inversion Hall as [|? ? Hev Hrest]; subst.
    unfold mbind at 1. unfold process_event, mbind, lift. rewrite Hev, Hflag.
    cbn [eq_str String.eqb Ascii.eqb Bool.eqb andb ret]. now apply IH.
Qed.

(** The contexts of the seven message classes answer [id] with the
    [id] of the message they were built from. *)
Lemma bind_Ok {A B} (r : Res A) (k : A -> Res B) y :
  bind r k = Ok y -> exists x, r = Ok x /\ k x = Ok y.
Proof. destruct r as [x|e]; [intros H; now exists x | discriminate]. Qed.

Ltac invert_binds :=
  repeat match goal with
         | H : bind _ _ = Ok _ |- _ =>
             apply bind_Ok in H; destruct H as (? & ? & H); cbv beta in H
         | H : Ok _ = Ok _ |- _ => injection H as H; try subst
         end.

Lemma message_context_id ty name init ev now c msg i :
  finder ty = Ok (name, init) ->
  init ev now = Ok c ->
  getitem ev "message" = Ok msg ->
  getitem msg "id" = Ok i ->
  ctx_id c = Ok i.
Proof.
  intros Hf Hinit Hmsg Hid. unfold finder in Hf.
  destruct ty as [| | |s| |]; try discriminate.
  repeat match type of Hf with
         | (if ?b then _ else _) = _ => destruct b
         end; try discriminate;
    injection Hf as <- <-;
    unfold TextMessageContext_init, ImageMessageContext_init, VideoMessageContext_init,
      AudioMessageContext_init, FileMessageContext_init, LocationMessageContext_init,
      StickerMessageContext_init, with_base in Hinit;
    invert_binds; cbn [ctx_id attrs]; congruence.
Qed.

(** X12. A message is cached before it is dispatched.  For a message
    event that is not passed over and that decodes, all that the pass
    does before the dispatch is the write of the context into the cache
    under the [id] of the message: the waiters of the channel and then
    its handlers are served on a client where [get_message] with that id
    already returns the context built from this event, also when an
    older context was cached under the same id.  After [clear_cache] the
    same lookup raises [Unknown]. *)
Theorem message_event_is_cached ev now ctx w mode msg s ty name init c :
  getitem ev "mode" = Ok mode ->
  eq_str mode "standby" && ignore_standby w = false ->
  getitem ev "type" = Ok (JStr "message") ->
  getitem ev "message" = Ok msg ->
  getitem msg "type" = Ok ty ->
  getitem msg "id" = Ok (JStr s) ->
  finder ty = Ok (name, init) ->
  init ev now = Ok c ->
  let cached :=
    mkWorld (handlers w) (pending w) (ignore_standby w) ((JStr s, c) :: MESSAGES w)
            (log w) (headers w) (user w) in
  process_event repr ev now ctx w
  = (_ <~ fulfill_pendings name c ;; _ <~ emit name c ;; ret (Some c)) cached
  /\ get_message s cached = Found c
  /\ get_message s (clear_cache cached)
     = RaiseUnknown ("Unknown message with ID " ++ s ++ ".").
Proof.
  intros Hmode Hskip Hty Hmsg Hmty Hid Hf Hinit. cbv zeta.
  pose proof (message_context_id ty name init ev now c msg (JStr s) Hf Hinit Hmsg Hid)
    as Hcid.
  split; [|split; [|reflexivity]].
  - unfold process_event. unfold mbind at 1 2 3. unfold lift. rewrite Hmode, Hskip.
    unfold classify, mbind, lift. rewrite Hty.
    cbn [eq_str String.eqb Ascii.eqb Bool.eqb].
    rewrite Hmsg, Hmty, Hf. cbn [fst snd]. rewrite Hinit.
    unfold add_to_cache. rewrite Hcid. cbn [hashable ret snd fst]. reflexivity.
  - unfold get_message. cbn [MESSAGES cache_get eq_str].
    now rewrite String.eqb_refl.
Qed.

End Batch.

End ProcessingMore.

(** ** The webhook route, further *)

Module WebhookMore.
Import Context Application Processing Webhook.

Section Route.

Variable hmac_sha256 : bytes -> bytes -> bytes.
Variable b64encode : bytes -> bytes.
Variable encode_utf8 : string -> bytes.
Variable compare_digest : bytes -> bytes -> bool.
Variable json_loads : bytes -> Res json.
Variable repr : json -> string.
Variable dev : bool.

(** X13. A request that passes the signature test and whose [events] is
    empty is the verification ping of the platform.  On a client that
    [run] has started, the route logs the routing line with an event
    count of zero, prints the payload when the client is a dev client,
    and hands the payload to [process], which reads the bot user for the
    hint that it logs.  When [lifespan] has set the bot user, the hint is
    logged and the answer is 200 with the confirmation; these log lines
    are all that is left behind: no handler runs, no slot is written and
    nothing is cached.  When it has not, the read raises
    [AttributeError] and there is no answer. *)
Theorem verification_ping_is_acknowledged channel_secret request clock w
    payload events n hd :
  compare_digest (encode_utf8 (default "" (x_line_signature request)))
                 (b64encode (hmac_sha256 (encode_utf8 channel_secret) (body request)))
  = true ->
  json_loads (body request) = Ok payload ->
  getitem payload "events" = Ok events ->
  truthy events = false ->
  len events = Ok n ->
  headers w = Some hd ->
  n = 0%nat
  /\ webhook hmac_sha256 b64encode encode_utf8 compare_digest json_loads repr dev
             channel_secret request clock w
     = match user w with
       | Some basic_id =>
           (Ok (mkResponse 200 (JDict [("message", JStr "happy birthday")])),
            logged (routing_lines dev 0 payload ++ [LogVerified basic_id]) w)
       | None =>
           (Raise (no_attribute_of_client "user"),
            logged (routing_lines dev 0 payload) w)
       end.
Proof.
  intros Hsig Hload Hev Hfalsy Hlen Hhd.
  assert (Hn : n = 0%nat).
  { destruct events as [| | | s | l | d]; try discriminate.
    - destruct s; [now injection Hlen as <- | discriminate].
    - destruct l; [now injection Hlen as <- | discriminate].
    - destruct d; [now injection Hlen as <- | discriminate]. }
  split; [exact Hn|]. subst n.
  unfold webhook, valid_signature, line_signature. rewrite Hsig. cbn [negb].
  rewrite (WebhookFacts.accepted_dispatches json_loads repr dev request clock w
             payload events 0 Hload Hev Hlen).
  rewrite Hhd. unfold process, mbind, lift. rewrite Hev, Hfalsy. cbn [negb].
  unfold get_user_basic_id. cbn [logged user].
  destruct (user w) as [basic_id|]; [|reflexivity].
  unfold emit_effect, logged.
  cbn [handlers pending ignore_standby MESSAGES log headers user].
  now rewrite <- app_assoc.
Qed.

End Route.

End WebhookMore.

Module DispatchExamples.
Import Context Application Processing Webhook Fixtures.
Import DispatchMore ProcessingMore WebhookMore.


Lemma emit_stops_at_raising_handler_witness :
  let w := listen "text" (logging_handler "C")
             (listen "text" (failing_handler "B" (TypeError "boom"))
                (listen "text" (logging_handler "A") (world0 true))) in
  fst (emit "text" sample_text w) = Raise (TypeError "boom")
  /\ log (snd (emit "text" sample_text w))
     = [Invoked "A" sample_text; Invoked "B" sample_text].
Proof.
  intros w.
  apply (emit_stops_at_raising_handler "text" sample_text w
           [logging_handler "A"] (failing_handler "B" (TypeError "boom"))
           [Some (logging_handler "C")] (TypeError "boom")).
  - vm_compute. reflexivity.
  - repeat constructor.
  - reflexivity.
Defined.

Lemma process_keeps_registry_and_slots_witness :
  let w := with_waiter "text" "req-1" (world0 true) in
  let w' := snd (process repr_str (batch [text_event; follow_event]) clock19 w) in
  slot (pending w') "text" "req-1" = Ok (Some (sample_text_at t19))
  /\ handlers w' = handlers w
  /\ ignore_standby w' = ignore_standby w
  /\ forall name, dom <$> (pending w' !! name) = dom <$> (pending w !! name).
Proof.
  intros w w'. split; [vm_compute; reflexivity|].
  apply (process_keeps_registry_and_slots repr_str (batch [text_event; follow_event])
           clock19 w).
  intros name hs. unfold w. cbn [with_waiter world0 handlers].
  rewrite handlers0_lookup.
  destruct (existsb (String.eqb name) channel_names); congruence.
Defined.

Lemma standby_events_are_passed_over_witness :
  process_events repr_str clock19 0
    [follow_standby_event; module_standby_event; bare_standby_event] None sample_world
  = (Ok None, sample_world).
Proof.
  apply (standby_events_are_passed_over repr_str clock19
           [follow_standby_event; module_standby_event; bare_standby_event]
           0 None sample_world).
  - reflexivity.
  - repeat constructor.
Defined.

Lemma message_event_is_cached_witness :
  let cached :=
    mkWorld (handlers sample_world) (pending sample_world) (ignore_standby sample_world)
            ((JStr "444573844083572737", sample_text_at t19) :: MESSAGES sample_world)
            (log sample_world) (headers sample_world) (user sample_world) in
  process_event repr_str text_event t19 None sample_world
  = (_ <~ fulfill_pendings "text" (sample_text_at t19) ;;
     _ <~ emit "text" (sample_text_at t19) ;;
     ret (Some (sample_text_at t19))) cached
  /\ get_message "444573844083572737" cached = Found (sample_text_at t19)
  /\ get_message "444573844083572737" (clear_cache cached)
     = RaiseUnknown "Unknown message with ID 444573844083572737.".
Proof.
  apply (message_event_is_cached repr_str text_event t19 None sample_world
           (JStr "active")
           (JDict [("id", JStr "444573844083572737"); ("type", JStr "text");
                   ("text", JStr "hello")])
           "444573844083572737" (JStr "text") "text" TextMessageContext_init
           (sample_text_at t19)); reflexivity.
Defined.

Lemma verification_ping_is_acknowledged_witness :
  webhook toy_hmac toy_b64encode toy_encode bytes_eqb (fun _ => Ok (batch [])) repr_str
          true "s3cr3t" (mkRequest [] (Some "s3cr3t")) clock19 (running sample_world)
  = (Ok (mkResponse 200 (JDict [("message", JStr "happy birthday")])),
     logged [LogRoutingOk 0; LogPayload (batch []); LogVerified (JStr "@linex")]
            (running sample_world)).
Proof.
  apply (verification_ping_is_acknowledged toy_hmac toy_b64encode toy_encode bytes_eqb
           (fun _ => Ok (batch [])) repr_str true "s3cr3t" (mkRequest [] (Some "s3cr3t"))
           clock19 (running sample_world) (batch []) (JList []) 0
           (JDict [("Authorization", JStr "Bearer t0k3n")])); reflexivity.
Defined.

End DispatchExamples.

(** ** Replying, further *)

Module ReplyMore.
Import Context.







Section Reply.

Variable emoji_text_to_emojis : string -> string * list json.
Variable post : ReplyRequest -> Res json.


End Reply.

End ReplyMore.

(** ** Emojis and mentions *)

Module TextFacts.
Import Context TextModels.

Lemma mapM_Ok_In {A B} (f : A -> Res B) l r x :
  mapM f l = Ok r -> In x l -> exists y, f x = Ok y.
Proof.
  revert r. induction l as [|a l IH]; intros r Hm Hin; [contradiction|].
  cbn [mapM] in Hm. unfold bind in Hm.
  destruct (f a) as [y|] eqn:Ea; [|discriminate].
  destruct (mapM f l) as [ys|] eqn:El; [|discriminate].
  destruct Hin as [<-|Hin]; [eauto | now apply (IH ys)].
Qed.

Lemma collect_mentions_well_formed user ms :
  Forall mentionee_well_formed ms ->
  match collect_mentions ms with
  | Ok None => existsb (mentions_user user) ms = true
  | Ok (Some mentions) =>
      existsb (fun v => eq_str v user) mentions = existsb (mentions_user user) ms
  | Raise _ => False
  end.
Proof.
  induction 1 as [|m ms (ty & Hty & Hwf) _ IH]; [reflexivity|].
  cbn [collect_mentions existsb]. rewrite Hty. cbn [bind].
  destruct (eq_str ty "all") eqn:Eall.
  { unfold mentions_user. now rewrite Hty, Eall. }
  destruct Hwf as [|(uid & Huid)]; [discriminate|]. rewrite Huid. cbn [bind].
  assert (Hm : mentions_user user m = eq_str uid user)
    by (unfold mentions_user; now rewrite Hty, Eall, Huid).
  rewrite Hm.
  destruct (collect_mentions ms) as [[mentions|]|]; cbn [bind option_map existsb].
  - now rewrite IH.
  - rewrite IH. apply orb_true_r.
  - contradiction.
Qed.

(** X16. On mentionees of the platform's shape, [includes_mention]
    answers whether some mention is a mention of everybody or names the
    user.  And it answers [True] as soon as it meets a mention of
    everybody, whatever comes after it in the list, well formed or not. *)
Theorem includes_mention_spec user :
  (forall ms,
     Forall mentionee_well_formed ms ->
     includes_mention (JList ms) user = Ok (existsb (mentions_user user) ms))
  /\ (forall before everybody after ty,
        Forall mentionee_well_formed before ->
        getitem everybody "type" = Ok ty ->
        eq_str ty "all" = true ->
        includes_mention (JList (before ++ everybody :: after)) user = Ok true).
Proof.
  split.
  - intros ms Hwf. unfold includes_mention. cbn [iterate bind].
    pose proof (collect_mentions_well_formed user ms Hwf) as H.
    destruct (collect_mentions ms) as [[mentions|]|]; cbn [bind];
      [now rewrite H | now rewrite H | contradiction].
  - intros before everybody after ty Hwf Hty Hall.
    unfold includes_mention. cbn [iterate bind].
    assert (H : collect_mentions (before ++ everybody :: after) = Ok None).
    { induction Hwf as [|m ms (ty' & Hty' & Hm) _ IH]; cbn [app collect_mentions].
      - rewrite Hty. cbn [bind]. now rewrite Hall.
      - rewrite Hty'. cbn [bind]. destruct (eq_str ty' "all"); [reflexivity|].
        destruct Hm as [|(uid & Huid)]; [discriminate|].
        rewrite Huid. cbn [bind]. now rewrite IH. }
    now rewrite H.
Qed.

(** X17. [TextMessageContext.mentions] hands the [userId] of each
    mentionee, a string, to [Mention] as [user], and [Mention] reads the
    [id] of whatever it is given that is not a dict.  So on a message
    with a mention that names a user, as the platform sends it, the
    property raises; it returns only when every mention is of another
    type. *)
Theorem mentions_fails_on_user_mention self text id emojis ms d u :
  attrs self = TextMessageContext text id emojis (JList ms) ->
  In (JDict d) ms ->
  assoc "type" d = Some (JStr "user") ->
  assoc "userId" d = Some (JStr u) ->
  (forall r, TextMessageContext_mentions self <> Ok r)
  /\ Mention_init (JStr "user") (UValue (JStr u))
     = Raise (if String.eqb u "" then TypeError "Keyword-only argument `user` was not given."
              else AttributeError "object has no attribute 'id'").
Proof.
  intros Hattrs Hin Hty Hu.
  assert (Hinit : Mention_init (JStr "user") (UValue (JStr u))
                  = Raise (if String.eqb u ""
                           then TypeError "Keyword-only argument `user` was not given."
                           else AttributeError "object has no attribute 'id'")).
  { unfold Mention_init. cbn [eq_str String.eqb Ascii.eqb Bool.eqb andb user_truthy truthy].
    destruct (String.eqb u ""); reflexivity. }
  split; [|exact Hinit].
  intros r Hr. unfold TextMessageContext_mentions in Hr. rewrite Hattrs in Hr.
  cbn [iterate bind] in Hr.
  destruct (mapM_Ok_In _ _ _ _ Hr Hin) as (y & Hy).
  cbn [getitem get] in Hy. rewrite Hty, Hu in Hy. cbn [bind] in Hy.
  rewrite Hinit in Hy. discriminate.
Qed.

(** X18. What the shortcuts of [Mention] build: a mention made from a user
    id, or from a user object, serialises to its type and that id; the
    mention of everybody leaves the slot [user_id] unset, and its
    [to_json] raises [AttributeError]. *)
Theorem mention_shortcuts :
  (forall id,
     bind (Mention_from_user_id id) Mention_to_json
     = Ok (JDict [("type", JStr "user"); ("userId", JStr id)]))
  /\ (forall id,
        bind (Mention_user id) Mention_to_json
        = Ok (JDict [("type", JStr "user"); ("userId", id)]))
  /\ Mention_all = Ok (mkMention (JStr "all") None)
  /\ bind Mention_all Mention_to_json = Raise (AttributeError "user_id").
Proof. repeat split. Qed.

Section Library.

Variable py_str : json -> string.
Variable finditer : string -> list Match.

(** X19. [text_with_emojis] serialises each emoji with [to_json], which
    gives [productId] and [emojiId] only, and [fit_on_texts] starts by
    reading [index]: on a message with at least one emoji the property
    raises [KeyError], and when it returns, the message has no emoji and
    what is returned is the text as it is. *)
Theorem text_with_emojis_never_fits self text id es ms :
  attrs self = TextMessageContext text id (JList es) ms ->
  (es = [] -> TextMessageContext_text_with_emojis py_str self = Ok text)
  /\ (forall r,
        TextMessageContext_text_with_emojis py_str self = Ok r -> es = [] /\ r = text)
  /\ (forall objs,
        TextMessageContext_emojis py_str self = Ok objs ->
        es <> [] ->
        TextMessageContext_text_with_emojis py_str self = Raise (KeyError (JStr "index"))).
Proof.
  intros Hattrs.
  assert (Hcases : forall objs,
             TextMessageContext_emojis py_str self = Ok objs ->
             (es = [] /\ objs = []) \/ (es <> [] /\ exists o rest, objs = o :: rest)).
  { intros objs. unfold TextMessageContext_emojis. rewrite Hattrs. cbn [iterate bind].
    destruct es as [|e es']; cbn [mapM]; [intros [= <-]; now left|].
    unfold bind at 1.
    match goal with |- context [match ?r with Ok _ => _ | Raise _ => _ end = _] =>
      destruct r as [o|]; [|discriminate] end.
    destruct (mapM _ es') as [os|]; [|discriminate].
    intros [= <-]. right. split; [discriminate | eauto]. }
  assert (Htext : TextMessageContext_text self = Ok text)
    by (unfold TextMessageContext_text; now rewrite Hattrs).
  split; [|split].
  - intros ->. unfold TextMessageContext_text_with_emojis, TextMessageContext_emojis.
    rewrite Hattrs. cbn [iterate bind mapM]. rewrite Htext. reflexivity.
  - intros r. unfold TextMessageContext_text_with_emojis.
    destruct (TextMessageContext_emojis py_str self) as [objs|] eqn:Eobjs; [|discriminate].
    cbn [bind]. rewrite Htext. cbn [bind].
    destruct (Hcases objs eq_refl) as [[-> ->] | (_ & o & rest & ->)].
    + cbn. now intros [= <-].
    + discriminate.
  - intros objs Hobjs Hne. unfold TextMessageContext_text_with_emojis.
    rewrite Hobjs. cbn [bind]. rewrite Htext. cbn [bind].
    destruct (Hcases objs Hobjs) as [[-> _] | (_ & o & rest & ->)]; [congruence|].
    reflexivity.
Qed.

Lemma append_cons a (s1 s2 : string) :
  (String a s1 ++ s2)%string = String a (s1 ++ s2)%string.
Proof. reflexivity. Qed.

Lemma get_append_Some i r x c :
  String.get i r = Some c -> String.get i (r ++ x) = Some c.
Proof.
  revert i. induction r as [|a r IH]; intros i; [discriminate|].
  rewrite append_cons. cbn [String.get]. destruct i as [|i]; [trivial | apply IH].
Qed.

Lemma get_append_last r c x :
  String.get (String.length r) (r ++ String c x) = Some c.
Proof.
  induction r as [|a r IH]; [reflexivity|].
  rewrite append_cons. exact IH.
Qed.

Lemma length_append (s1 s2 : string) :
  String.length (s1 ++ s2) = (String.length s1 + String.length s2)%nat.
Proof.
  induction s1 as [|a s1 IH]; [reflexivity|].
  rewrite append_cons. cbn [String.length Nat.add]. now rewrite IH.
Qed.

Lemma append_assoc (s1 s2 s3 : string) :
  (s1 ++ (s2 ++ s3))%string = ((s1 ++ s2) ++ s3)%string.
Proof.
  induction s1 as [|a s1 IH]; [reflexivity|].
  rewrite !append_cons. now rewrite IH.
Qed.

Lemma emoji_loop_placed text ms :
  forall result prev emojis ms0,
    Forall2 (placed result) emojis ms0 ->
    Forall2 (placed (fst (fst (emoji_loop text ms result prev emojis))))
            (snd (emoji_loop text ms result prev emojis)) (ms0 ++ ms)
    /\ forall x, Forall2 (placed (fst (fst (emoji_loop text ms result prev emojis)) ++ x))
                         (snd (emoji_loop text ms result prev emojis)) (ms0 ++ ms).
Proof.
  induction ms as [|m ms IH]; intros result prev emojis ms0 Hplaced; cbn [emoji_loop fst snd].
  - rewrite app_nil_r. split; [exact Hplaced|].
    intros x. eapply Forall2_impl; [exact Hplaced|].
    intros e m (i & -> & Hi). exists i. split; [reflexivity | now apply get_append_Some].
  - replace (ms0 ++ m :: ms) with ((ms0 ++ [m]) ++ ms) by now rewrite <- app_assoc.
    apply IH. apply Forall2_app.
    + eapply Forall2_impl; [exact Hplaced|].
      intros e m' (i & -> & Hi). exists i. split; [reflexivity | now apply get_append_Some].
    + constructor; [|constructor].
      exists (String.length (result ++ slice text prev (m_start m))). split.
      * unfold emoji_entry. rewrite !length_append. cbn [String.length].
        do 5 f_equal. lia.
      * rewrite append_assoc. apply get_append_last.
Qed.

Lemma emoji_loop_no_match text result prev emojis :
  emoji_loop text [] result prev emojis = (result, prev, emojis).
Proof. reflexivity. Qed.

Lemma substring_all s : substring 0 (String.length s) s = s.
Proof.
  induction s as [|a s IH]; [reflexivity|].
  cbn [String.length substring]. now rewrite IH.
Qed.

(** X20. [emoji_text_to_emojis] makes one entry per match, in order, with
    the two groups of the match, and the [index] of each entry is the
    position of the placeholder [$] that stands for the match in the text
    it returns.  The entries have no [length]; so [fit_on_texts], which
    reads [length] of every entry, raises [KeyError] on what
    [emoji_text_to_emojis] returns whenever there is a match.  Without a
    match the text comes back as it is, with no entry. *)
Theorem emoji_text_to_emojis_places_entries text :
  let result := fst (emoji_text_to_emojis finditer text) in
  let emojis := snd (emoji_text_to_emojis finditer text) in
  Forall2 (placed result) emojis (finditer text)
  /\ (finditer text = [] -> result = text /\ emojis = [])
  /\ (finditer text <> [] ->
      fit_on_texts py_str (JStr result) emojis = Raise (KeyError (JStr "length"))).
Proof.
  cbv zeta. unfold emoji_text_to_emojis.
  pose proof (emoji_loop_placed text (finditer text) "" 0 [] [] (List.Forall2_nil _)) as [_ H].
  destruct (emoji_loop text (finditer text) "" 0 []) as [[result prev] emojis] eqn:E.
  cbn [fst snd app] in *.
  split; [apply H|]. split.
  - intros Hnone. rewrite Hnone in E. cbn in E. injection E as <- <- <-.
    split; [|reflexivity]. cbn. unfold slice_from, slice_bound. cbn.
    rewrite Nat.sub_0_r. apply substring_all.
  - intros Hsome. specialize (H ""%string).
    destruct (finditer text) as [|m ms]; [congruence|].
    inversion H as [|e ? es ? (i & -> & _) _]; subst.
    reflexivity.
Qed.

End Library.

End TextFacts.

Module TextExamples.
Import Context TextModels Fixtures TextFacts.

Lemma includes_mention_spec_witness :
  includes_mention (JList [mention_example]) "U49585cd0d5" = Ok true
  /\ includes_mention (JList [mention_example]) "U91eeaf62d9" = Ok false
  /\ includes_mention (JList [mention_example; mention_everybody; JNull]) "U91eeaf62d9"
     = Ok true.
Proof.
  destruct (includes_mention_spec "U49585cd0d5") as [H1 _].
  destruct (includes_mention_spec "U91eeaf62d9") as [H2 H3].
  assert (Hwf : Forall mentionee_well_formed [mention_example]).
  { repeat constructor. exists (JStr "user"). split; [reflexivity|].
    right. eexists. reflexivity. }
  split; [|split].
  - now rewrite (H1 [mention_example] Hwf).
  - now rewrite (H2 [mention_example] Hwf).
  - apply (H3 [mention_example] mention_everybody [JNull] (JStr "all") Hwf); reflexivity.
Defined.

Lemma mentions_fails_on_user_mention_witness :
  TextMessageContext_mentions sample_mentions
  = Raise (AttributeError "object has no attribute 'id'")
  /\ forall r, TextMessageContext_mentions sample_mentions <> Ok r.
Proof.
  split; [reflexivity|].
  apply (mentions_fails_on_user_mention sample_mentions
           (JStr "@All @example Good Morning!! (love)") (JStr "444573844083572737")
           (JList [love_emoji]) [mention_example; mention_everybody]
           [("index", JNum 5); ("length", JNum 8); ("type", JStr "user");
            ("userId", JStr "U49585cd0d5")] "U49585cd0d5");
    try reflexivity.
  now left.
Defined.

Lemma text_with_emojis_never_fits_witness :
  TextMessageContext_text_with_emojis str_of sample_mentions
  = Raise (KeyError (JStr "index"))
  /\ TextMessageContext_text_with_emojis str_of (sample_text_at t19) = Ok (JStr "hello").
Proof.
  split.
  - destruct (text_with_emojis_never_fits str_of sample_mentions
                (JStr "@All @example Good Morning!! (love)") (JStr "444573844083572737")
                [love_emoji] (JList [mention_example; mention_everybody]) eq_refl)
      as (_ & _ & H).
    apply (H [Emoji_init str_of (JStr "5ac1bfd5040ab15980c9b435") (JStr "001")]);
      [reflexivity | discriminate].
  - destruct (text_with_emojis_never_fits str_of (sample_text_at t19)
                (JStr "hello") (JStr "444573844083572737") [] (JList []) eq_refl)
      as (H & _). now apply H.
Defined.

Lemma emoji_text_to_emojis_places_entries_witness :
  emoji_text_to_emojis one_match "Hi [001](5ac1) there"
  = ("Hi $ there",
     [JDict [("index", JNum 3); ("emojiId", JStr "001"); ("productId", JStr "5ac1")]])
  /\ fit_on_texts str_of (JStr "Hi $ there")
       (snd (emoji_text_to_emojis one_match "Hi [001](5ac1) there"))
     = Raise (KeyError (JStr "length")).
Proof.
  split; [reflexivity|].
  destruct (emoji_text_to_emojis_places_entries str_of one_match "Hi [001](5ac1) there")
    as (_ & _ & H).
  apply H. discriminate.
Defined.

End TextExamples.

(** ** The routers *)

Module RouterFacts.
Import Context TextModels Routers.

Lemma split_on_nonempty sep s : split_on sep s <> [].
Proof.
  induction s as [|c s IH]; cbn [split_on]; [discriminate|].
  destruct (Ascii.eqb c sep); [discriminate|].
  destruct (split_on sep s); discriminate.
Qed.

Lemma split_on_free sep p rest :
  contains sep p = false ->
  split_on sep (p ++ rest)
  = match split_on sep rest with
    | h :: t => (p ++ h)%string :: t
    | [] => [p]
    end.
Proof.
  induction p as [|c p IH]; intros Hfree.
  - change ("" ++ rest)%string with rest.
    destruct (split_on sep rest) eqn:E; [|reflexivity].
    now apply split_on_nonempty in E.
  - unfold contains in Hfree. cbn [list_ascii_of_string existsb] in Hfree.
    apply orb_false_iff in Hfree as [Hc Hp].
    change (String c p ++ rest)%string with (String c (p ++ rest)%string).
    cbn [split_on]. rewrite Ascii.eqb_sym, Hc. rewrite (IH Hp).
    destruct (split_on sep rest); reflexivity.
Qed.

Lemma append_empty_r (s : string) : (s ++ "")%string = s.
Proof.
  induction s as [|c s IH]; [reflexivity|].
  change (String c s ++ "")%string with (String c (s ++ "")%string). now rewrite IH.
Qed.

Lemma concat_cons sep p q parts :
  String.concat sep (p :: q :: parts)
  = (p ++ sep ++ String.concat sep (q :: parts))%string.
Proof. reflexivity. Qed.

Lemma split_on_sep sep s :
  split_on sep (String sep "" ++ s) = EmptyString :: split_on sep s.
Proof.
  change (String sep "" ++ s)%string with (String sep s).
  cbn [split_on]. now rewrite Ascii.eqb_refl.
Qed.

(** Splitting what was joined gives the parts back, when there is at
    least one part and no part holds the separator. *)
Lemma split_on_concat sep parts :
  parts <> [] ->
  Forall (fun p => contains sep p = false) parts ->
  split_on sep (String.concat (String sep "") parts) = parts.
Proof.
  intros Hne Hall. induction Hall as [|p parts Hp Hrest IH]; [congruence|].
  destruct parts as [|q parts].
  - cbn [String.concat]. rewrite <- (append_empty_r p) at 1.
    rewrite (split_on_free sep p "" Hp). cbn [split_on]. now rewrite append_empty_r.
  - rewrite concat_cons, (split_on_free sep p _ Hp), split_on_sep.
    rewrite IH by discriminate. now rewrite append_empty_r.
Qed.

Lemma substring_skip (a b : string) :
  substring (String.length a) (String.length b) (a ++ b) = b.
Proof.
  induction a as [|c a IH].
  - change ("" ++ b)%string with b. apply TextFacts.substring_all.
  - change (String c a ++ b)%string with (String c (a ++ b)%string).
    cbn [String.length substring]. exact IH.
Qed.

(** [(a + b)[len(a'):]] is [b] when [a'] is as long as [a]. *)
Lemma slice_from_prefix (a a' b : string) :
  String.length a' = String.length a ->
  slice_from (a ++ b) (Z.of_nat (String.length a')) = b.
Proof.
  intros Hlen. unfold slice_from, slice_bound.
  replace (Z.of_nat (String.length a') <? 0)%Z with false
    by (symmetry; apply Z.ltb_ge; lia).
  rewrite Nat2Z.id, TextFacts.length_append, Hlen.
  rewrite Nat.min_l by lia.
  replace (String.length a + String.length b - String.length a)%nat
    with (String.length b) by lia.
  apply substring_skip.
Qed.

Lemma prefix_append (a b : string) : String.prefix a (a ++ b) = true.
Proof.
  induction a as [|c a IH]; [now destruct b|].
  change (String c a ++ b)%string with (String c (a ++ b)%string).
  cbn [String.prefix]. now destruct (ascii_dec c c).
Qed.

Lemma list_ascii_of_string_append (a b : string) :
  list_ascii_of_string (a ++ b) = list_ascii_of_string a ++ list_ascii_of_string b.
Proof.
  induction a as [|c a IH]; [reflexivity|].
  change (String c a ++ b)%string with (String c (a ++ b)%string).
  cbn [list_ascii_of_string app]. now rewrite IH.
Qed.

Lemma rstrip_trailing_space (s : string) : rstrip (s ++ " ") = rstrip s.
Proof.
  unfold rstrip. rewrite list_ascii_of_string_append, rev_app_distr. reflexivity.
Qed.

(** What the two routers collect for the keyword-only parameter. *)
Lemma concat_spaced (rest : list string) :
  rest <> [] ->
  String.concat "" (map (fun p => p ++ " ")%string rest)
  = (String.concat " " rest ++ " ")%string.
Proof.
  induction rest as [|p rest IH]; [congruence|]. intros _.
  destruct rest as [|q rest]; [reflexivity|].
  change (map (fun p0 => (p0 ++ " ")%string) (p :: q :: rest))
    with ((p ++ " ")%string :: map (fun p0 => (p0 ++ " ")%string) (q :: rest)).
  assert (H : forall a l, l <> [] ->
                String.concat "" (a :: l) = (a ++ String.concat "" l)%string).
  { intros a [|b l] Hl; [congruence | reflexivity]. }
  rewrite H by discriminate. rewrite IH by discriminate.
  rewrite concat_cons. now rewrite !TextFacts.append_assoc.
Qed.

Lemma concat_unspaced (rest : list string) :
  String.concat "" (map (fun p => p ++ "")%string rest) = String.concat "" rest.
Proof.
  f_equal. rewrite <- (map_id rest) at 2. apply map_ext. intros p. apply append_empty_r.
Qed.

(** What follows the first [len(name + c)] characters of [name + c + body],
    split at the semicolons. *)
Lemma parts_of_body (name name' : string) (c c' : ascii) (parts : list string) :
  String.length name' = String.length name ->
  parts <> [] ->
  Forall (fun p => contains ";" p = false) parts ->
  split_on ";" (slice_from (name ++ String c (String.concat ";" parts))
                  (Z.of_nat (String.length (name' ++ String c' ""))))
  = parts.
Proof.
  intros Hlen Hne Hfree.
  change (String c (String.concat ";" parts))
    with (String c "" ++ String.concat ";" parts)%string.
  rewrite TextFacts.append_assoc, slice_from_prefix.
  - now apply split_on_concat.
  - rewrite !TextFacts.length_append. cbn [String.length]. lia.
Qed.

Section Handlers.

Variable py_int : string -> option Z.
Variable py_float : string -> option Q.

Lemma Converted_length params parts vals :
  Converted py_int py_float params parts vals ->
  length parts = length params /\ length vals = length params.
Proof. induction 1 as [|? ? ? ? ? ? ? _ _ _ [IH1 IH2]]; cbn; [auto | split; congruence]. Qed.

(** The parts that go to the regular parameters. *)
Lemma parse_parts_regular fn spacer meta params parts vals :
  Converted py_int py_float params parts vals ->
  forall before rest args kwargs,
    regular meta = before ++ params ->
    parse_parts py_int py_float fn spacer meta (length before) (parts ++ rest) args kwargs
    = parse_parts py_int py_float fn spacer meta (length before + length parts) rest
        (args ++ vals) kwargs.
Proof.
  induction 1 as [|name ann part v params parts vals Hsup Hconv _ IH];
    intros before rest args kwargs Hreg.
  - cbn [app length]. now rewrite Nat.add_0_r, app_nil_r.
  - cbn [app parse_parts].
    assert (Hnth : nth_error (regular meta) (length before) = Some (name, ann)).
    { rewrite Hreg, nth_error_app2 by lia. now rewrite Nat.sub_diag. }
    assert (Hlt : (length (regular meta) <? length before + 1)%nat = false).
    { apply Nat.ltb_ge. rewrite Hreg, length_app. cbn [length]. lia. }
    rewrite Hnth, Hlt, Hsup, Hconv.
    assert (Hstep : forall k,
               parse_parts py_int py_float fn spacer meta (S (length before))
                 (parts ++ rest) (args ++ [v]) k
               = parse_parts py_int py_float fn spacer meta
                   (length before + length (part :: parts)) rest (args ++ v :: vals) k).
    { intros k. specialize (IH (before ++ [(name, ann)]) rest (args ++ [v]) k).
      rewrite length_app in IH. cbn [length] in IH.
      rewrite Nat.add_1_r in IH. rewrite IH by (now rewrite <- app_assoc).
      rewrite <- app_assoc. cbn [app length]. f_equal. lia. }
    destruct (kw meta); apply Hstep.
Qed.

(** The parts that go to the keyword-only parameter. *)
Lemma parse_parts_keyword fn spacer meta k rest :
  kw meta = Some k ->
  forall index args kwargs,
    (length (regular meta) <= index)%nat ->
    parse_parts py_int py_float fn spacer meta index rest args kwargs
    = Done (args,
            match rest with
            | [] => kwargs
            | _ => Some (default "" kwargs
                         ++ String.concat "" (map (fun p => p ++ spacer) rest))%string
            end).
Proof.
  intros Hkw. induction rest as [|p rest IH]; intros index args kwargs Hle;
    cbn [parse_parts]; [reflexivity|].
  rewrite Hkw.
  replace (length (regular meta) <? index + 1)%nat with true
    by (symmetry; apply Nat.ltb_lt; lia).
  rewrite IH by lia. do 2 f_equal.
  destruct rest as [|q rest]; [reflexivity|].
  assert (H : String.concat "" (map (fun p0 => (p0 ++ spacer)%string) (p :: q :: rest))
              = ((p ++ spacer)
                 ++ String.concat "" (map (fun p0 => (p0 ++ spacer)%string) (q :: rest)))%string)
    by reflexivity.
  rewrite H. cbn [default id]. now rewrite !TextFacts.append_assoc.
Qed.

Lemma parse_all_regular fn spacer meta items vals args :
  Converted py_int py_float (regular meta) items vals ->
  parse_parts py_int py_float fn spacer meta 0 items args None
  = Done (args ++ vals, None).
Proof.
  intros Hconv.
  pose proof (parse_parts_regular fn spacer meta _ _ _ Hconv [] [] args None eq_refl) as H.
  rewrite app_nil_r in H. exact H.
Qed.

Lemma parse_regular_then_keyword fn spacer meta k items rest vals args :
  kw meta = Some k ->
  rest <> [] ->
  Converted py_int py_float (regular meta) items vals ->
  parse_parts py_int py_float fn spacer meta 0 (items ++ rest) args None
  = Done (args ++ vals,
          Some (String.concat "" (map (fun p => p ++ spacer)%string rest))).
Proof.
  intros Hkw Hne Hconv.
  pose proof (parse_parts_regular fn spacer meta _ _ _ Hconv [] rest args None eq_refl) as H.
  cbn [length Nat.add] in H. rewrite H.
  rewrite (parse_parts_keyword fn spacer meta k rest Hkw).
  - destruct rest; [congruence | reflexivity].
  - cbn [length Nat.add]. destruct (Converted_length _ _ _ Hconv) as [-> _]. lia.
Qed.

Lemma parse_too_many fn spacer meta items extra vals args :
  kw meta = None ->
  extra <> [] ->
  Converted py_int py_float (regular meta) items vals ->
  parse_parts py_int py_float fn spacer meta 0 (items ++ extra) args None
  = Fails (IndexError "list index out of range").
Proof.
  intros Hkw Hne Hconv.
  pose proof (parse_parts_regular fn spacer meta _ _ _ Hconv [] extra args None eq_refl) as H.
  cbn [length Nat.add] in H. rewrite H.
  destruct extra as [|p extra]; [congruence|].
  cbn [parse_parts]. rewrite Hkw.
  destruct (Converted_length _ _ _ Hconv) as [-> _].
  now rewrite (proj2 (nth_error_None _ _)) by lia.
Qed.

(** The body of [on_text] once the text starts with the name and the
    function declares a parameter after the context. *)
Lemma on_text_parses cmd meta func ctx content :
  TextMessageContext_text ctx = Ok (JStr content) ->
  String.prefix cmd content = true ->
  regular meta <> [] \/ kw meta <> None ->
  on_text py_int py_float cmd meta func ctx
  = match parse_parts py_int py_float (f_name func) " " meta 0
            (split_on ";" (slice_from content (Z.of_nat (String.length (cmd ++ " ")))))
            [ACtx ctx] None with
    | Done (args, kwargs) =>
        match kwargs, kw meta with
        | Some collected, Some (k, _) =>
            f_call func args (Some (k, AStrV (rstrip collected)))
        | _, _ => f_call func args None
        end
    | Fails e => Fails e
    | FailsValueError m => FailsValueError m
    end.
Proof.
  intros Htext Hpre Hsome. unfold on_text. rewrite Htext, Hpre. cbn [negb].
  destruct (kw meta), (regular meta); try reflexivity.
  destruct Hsome; congruence.
Qed.

Lemma Converted_nonempty params items vals :
  Converted py_int py_float params items vals -> items <> [] -> params <> [].
Proof. destruct 1; [congruence | discriminate]. Qed.

(** X21. A postback whose data was built by [postback_data] with items
    that hold no semicolon and that convert under the annotations of the
    regular parameters reaches the function with the context and the
    converted items.  The handler registered for [data] does so for data
    built under any name of the same length: it skips [len(data + ';')]
    characters and never compares them with [data]. *)
Theorem postback_handler_ignores_prefix data other meta func ctx items vals :
  PostbackContext_data ctx = Ok (JStr (postback_data other items)) ->
  String.length other = String.length data ->
  items <> [] ->
  Forall (fun p => contains ";" p = false) items ->
  Converted py_int py_float (regular meta) items vals ->
  on_postback py_int py_float data meta func ctx = f_call func (ACtx ctx :: vals) None.
Proof.
  intros Hdata Hlen Hne Hfree Hconv. unfold on_postback. rewrite Hdata.
  unfold postback_data.
  change (other ++ ";" ++ String.concat ";" items)%string
    with (other ++ String ";" (String.concat ";" items))%string.
  rewrite (parts_of_body other data ";" ";" items) by auto.
  rewrite (parse_all_regular _ _ _ _ _ _ Hconv). cbn [app].
  now destruct (kw meta) as [[? ?]|].
Qed.

(** X22. In a postback, the parts that follow those of the regular
    parameters go to the keyword-only parameter glued together with
    nothing between them, and the result is converted by the annotation
    of that parameter, whatever the annotation is. *)
Theorem postback_keyword_glues_rest data meta func ctx k ann items rest vals :
  PostbackContext_data ctx = Ok (JStr (postback_data data (items ++ rest))) ->
  Forall (fun p => contains ";" p = false) (items ++ rest) ->
  rest <> [] ->
  kw meta = Some (k, ann) ->
  Converted py_int py_float (regular meta) items vals ->
  on_postback py_int py_float data meta func ctx
  = match convert py_int py_float ann (String.concat "" rest) with
    | Done v => f_call func (ACtx ctx :: vals) (Some (k, v))
    | Fails e => Fails e
    | FailsValueError m => FailsValueError m
    end.
Proof.
  intros Hdata Hfree Hne Hkw Hconv. unfold on_postback. rewrite Hdata.
  unfold postback_data.
  change (data ++ ";" ++ String.concat ";" (items ++ rest))%string
    with (data ++ String ";" (String.concat ";" (items ++ rest)))%string.
  rewrite (parts_of_body data data ";" ";" (items ++ rest)); auto.
  - rewrite (parse_regular_then_keyword _ _ _ _ _ _ _ _ Hkw Hne Hconv).
    rewrite Hkw, concat_unspaced. reflexivity.
  - intros Happ. apply app_eq_nil in Happ as [_ ?]. auto.
Qed.

(** X23. A text made of the name of a command, one character, and items
    joined by semicolons reaches the function with the context and the
    converted items.  The character after the name is dropped without
    being looked at: it need not be a space. *)
Theorem command_parses_arguments cmd c meta func ctx items vals :
  TextMessageContext_text ctx
  = Ok (JStr (cmd ++ String c (String.concat ";" items))) ->
  items <> [] ->
  Forall (fun p => contains ";" p = false) items ->
  Converted py_int py_float (regular meta) items vals ->
  on_text py_int py_float cmd meta func ctx = f_call func (ACtx ctx :: vals) None.
Proof.
  intros Htext Hne Hfree Hconv.
  rewrite (on_text_parses _ _ _ _ _ Htext (prefix_append _ _))
    by (left; eapply Converted_nonempty; eauto).
  rewrite (parts_of_body cmd cmd c " " items) by auto.
  rewrite (parse_all_regular _ _ _ _ _ _ Hconv). cbn [app].
  now destruct (kw meta) as [[? ?]|].
Qed.

(** X24. In a command, the parts that follow those of the regular
    parameters go to the keyword-only parameter joined by spaces in place
    of the semicolons, with the white space at the end stripped; the
    annotation of that parameter is not applied. *)
Theorem command_keyword_joins_rest cmd c meta func ctx k ann items rest vals :
  TextMessageContext_text ctx
  = Ok (JStr (cmd ++ String c (String.concat ";" (items ++ rest)))) ->
  Forall (fun p => contains ";" p = false) (items ++ rest) ->
  rest <> [] ->
  kw meta = Some (k, ann) ->
  Converted py_int py_float (regular meta) items vals ->
  on_text py_int py_float cmd meta func ctx
  = f_call func (ACtx ctx :: vals)
      (Some (k, AStrV (rstrip (String.concat " " rest)))).
Proof.
  intros Htext Hfree Hne Hkw Hconv.
  rewrite (on_text_parses _ _ _ _ _ Htext (prefix_append _ _))
    by (right; congruence).
  rewrite (parts_of_body cmd cmd c " " (items ++ rest)); auto.
  - rewrite (parse_regular_then_keyword _ _ _ _ _ _ _ _ Hkw Hne Hconv).
    rewrite Hkw, concat_spaced, rstrip_trailing_space by exact Hne. reflexivity.
  - intros Happ. apply app_eq_nil in Happ as [_ ?]. auto.
Qed.

(** X25. A command text with more parts than the function has
    parameters, when none of them is keyword-only, ends in [IndexError];
    the function is not called, although the first parts converted. *)
Theorem command_with_too_many_parts cmd c meta func ctx items extra vals :
  TextMessageContext_text ctx
  = Ok (JStr (cmd ++ String c (String.concat ";" (items ++ extra)))) ->
  Forall (fun p => contains ";" p = false) (items ++ extra) ->
  items <> [] ->
  extra <> [] ->
  kw meta = None ->
  Converted py_int py_float (regular meta) items vals ->
  on_text py_int py_float cmd meta func ctx
  = Fails (IndexError "list index out of range").
Proof.
  intros Htext Hfree Hitems Hne Hkw Hconv.
  rewrite (on_text_parses _ _ _ _ _ Htext (prefix_append _ _))
    by (left; eapply Converted_nonempty; eauto).
  rewrite (parts_of_body cmd cmd c " " (items ++ extra)); auto.
  - now rewrite (parse_too_many _ _ _ _ _ _ _ Hkw Hne Hconv).
  - intros Happ. apply app_eq_nil in Happ as [_ ?]. auto.
Qed.

(** X26. A postback handler whose function takes the context alone
    fails on every postback whose data is a string: splitting gives at
    least one part, and there is no parameter for it; the function is
    not called. *)
Theorem postback_handler_of_context_alone data meta func ctx s :
  regular meta = [] ->
  kw meta = None ->
  PostbackContext_data ctx = Ok (JStr s) ->
  on_postback py_int py_float data meta func ctx
  = Fails (IndexError "list index out of range").
Proof.
  intros Hreg Hkw Hdata. unfold on_postback. rewrite Hdata.
  destruct (split_on ";" _) as [|p parts] eqn:E;
    [now apply split_on_nonempty in E|].
  cbn [parse_parts]. now rewrite Hkw, Hreg.
Qed.

(** X27. A registration of a command that fails while the parameters of
    the function are read leaves the name in the list of commands: every
    later registration under that name is refused with [ValueError],
    whatever the function. *)
Theorem failed_registration_blocks_name name func commands e :
  existsb (String.eqb name) commands = false ->
  f_is_coro func = true ->
  get_params_with_types (f_params func) = Raise e ->
  exists commands',
    command py_int py_float name func commands = Rejected commands' (Fails e)
    /\ forall func', exists msg,
         command py_int py_float name func' commands'
         = Rejected commands' (FailsValueError msg).
Proof.
  intros Hnew Hcoro Hmeta. exists (commands ++ [name]). split.
  - unfold command. now rewrite Hnew, Hcoro, Hmeta.
  - intros func'. eexists. unfold command.
    rewrite existsb_app. cbn [existsb]. rewrite String.eqb_refl. cbn [orb].
    rewrite orb_true_r. reflexivity.
Qed.

(** X28. The names in the list of commands stay distinct through every
    registration of a command, however it ends; a registration of a
    postback handler leaves the list as it is. *)
Theorem command_names_stay_distinct name func commands :
  NoDup commands ->
  NoDup (commands_after (command py_int py_float name func commands))
  /\ commands_after (postback py_int py_float name func commands) = commands.
Proof.
  intros Hnodup. split.
  - unfold command. destruct (existsb (String.eqb name) commands) eqn:Hin; [exact Hnodup|].
    destruct (f_is_coro func); cbn [negb]; [|exact Hnodup].
    assert (Hfresh : NoDup (commands ++ [name])).
    { apply NoDup_app; repeat split; [exact Hnodup | | apply NoDup_singleton].
      intros x Hx Hx'. apply list_elem_of_singleton in Hx'. subst x.
      assert (existsb (String.eqb name) commands = true); [|congruence].
      apply existsb_exists. exists name. split; [now apply list_elem_of_In|].
      apply String.eqb_refl. }
    now destruct (get_params_with_types (f_params func)).
  - unfold postback. destruct (f_is_coro func); cbn [negb]; [|reflexivity].
    now destruct (get_params_with_types (f_params func)).
Qed.

End Handlers.

Lemma collect_params_spec params :
  forall meta,
    collect_params params meta
    = let regulars :=
        regular meta
        ++ map param_entry (List.filter (fun p => negb (is_keyword_only p)) params) in
      match kw meta, List.filter is_keyword_only params with
      | Some current, k :: _ =>
          Raise (more_than_one_keyword_only (fst current) (p_name k))
      | None, k1 :: k2 :: _ =>
          Raise (more_than_one_keyword_only (p_name k1) (p_name k2))
      | None, [k] => Ok (mkMeta regulars (Some (param_entry k)))
      | current, [] => Ok (mkMeta regulars current)
      end.
Proof.
  induction params as [|p params IH]; intros meta; cbn [collect_params List.filter].
  - cbn [map]. rewrite app_nil_r. now destruct meta as [r [c|]].
  - destruct (is_keyword_only p) eqn:Hp; cbn [negb].
    + destruct (kw meta) as [c|] eqn:Hkw; [reflexivity|].
      rewrite IH. cbn [kw regular fst].
      destruct (List.filter is_keyword_only params); reflexivity.
    + rewrite IH. cbn [kw regular map]. rewrite <- app_assoc. reflexivity.
Qed.

(** X29. [get_params_with_types] skips the first parameter, keeps the
    others that are not keyword-only in the order of the signature, with
    variadic ones among them, and records the keyword-only one; with two
    or more keyword-only parameters it raises [TypeError], naming the
    first two. *)
Theorem get_params_with_types_spec params :
  let others := tl params in
  let regulars :=
    map param_entry (List.filter (fun p => negb (is_keyword_only p)) others) in
  get_params_with_types params
  = match List.filter is_keyword_only others with
    | [] => Ok (mkMeta regulars None)
    | [k] => Ok (mkMeta regulars (Some (param_entry k)))
    | k1 :: k2 :: _ => Raise (more_than_one_keyword_only (p_name k1) (p_name k2))
    end.
Proof.
  unfold get_params_with_types. rewrite collect_params_spec. cbn [kw regular app].
  destruct (List.filter is_keyword_only (tl params)) as [|k1 [|k2 ?]]; reflexivity.
Qed.

End RouterFacts.

Module RouterExamples.
Import Context TextModels Routers Fixtures RouterFacts.

Lemma postback_handler_ignores_prefix_witness :
  on_postback not_a_number not_a_number "greet" greet_meta greet
    (postback_of "hello;Ann")
  = f_call greet [ACtx (postback_of "hello;Ann"); AStrV "Ann"] None.
Proof.
  apply (postback_handler_ignores_prefix not_a_number not_a_number
           "greet" "hello" greet_meta greet (postback_of "hello;Ann")
           ["Ann"] [AStrV "Ann"]);
    [reflexivity | reflexivity | discriminate | repeat constructor
    | repeat econstructor].
Defined.

Lemma postback_keyword_glues_rest_witness :
  on_postback not_a_number not_a_number "greet" greet_meta greet
    (postback_of "greet;Ann;good;day")
  = f_call greet [ACtx (postback_of "greet;Ann;good;day"); AStrV "Ann"]
      (Some ("message", AStrV "goodday")).
Proof.
  apply (postback_keyword_glues_rest not_a_number not_a_number
           "greet" greet_meta greet (postback_of "greet;Ann;good;day")
           "message" AStr ["Ann"] ["good"; "day"] [AStrV "Ann"]);
    [reflexivity | repeat constructor | discriminate | reflexivity
    | repeat econstructor].
Defined.

Lemma command_parses_arguments_witness :
  on_text not_a_number not_a_number "greet" greet_meta greet (text_saying "greet!Ann")
  = f_call greet [ACtx (text_saying "greet!Ann"); AStrV "Ann"] None.
Proof.
  apply (command_parses_arguments not_a_number not_a_number
           "greet" "!" greet_meta greet (text_saying "greet!Ann")
           ["Ann"] [AStrV "Ann"]);
    [reflexivity | discriminate | repeat constructor | repeat econstructor].
Defined.

Lemma command_keyword_joins_rest_witness :
  on_text not_a_number not_a_number "greet" greet_meta greet
    (text_saying "greet Ann;good;day ")
  = f_call greet [ACtx (text_saying "greet Ann;good;day "); AStrV "Ann"]
      (Some ("message", AStrV "good day")).
Proof.
  apply (command_keyword_joins_rest not_a_number not_a_number
           "greet" " " greet_meta greet (text_saying "greet Ann;good;day ")
           "message" AStr ["Ann"] ["good"; "day "] [AStrV "Ann"]);
    [reflexivity | repeat constructor | discriminate | reflexivity
    | repeat econstructor].
Defined.

Lemma command_with_too_many_parts_witness :
  on_text not_a_number not_a_number "wave" wave_meta wave (text_saying "wave Ann;Bob")
  = Fails (IndexError "list index out of range").
Proof.
  apply (command_with_too_many_parts not_a_number not_a_number
           "wave" " " wave_meta wave (text_saying "wave Ann;Bob")
           ["Ann"] ["Bob"] [AStrV "Ann"]);
    [reflexivity | repeat constructor | discriminate | discriminate | reflexivity
    | repeat econstructor].
Defined.

Lemma postback_handler_of_context_alone_witness :
  on_postback not_a_number not_a_number "ping" ping_meta ping (postback_of "ping")
  = Fails (IndexError "list index out of range").
Proof.
  apply (postback_handler_of_context_alone not_a_number not_a_number
           "ping" ping_meta ping (postback_of "ping") "ping");
    reflexivity.
Defined.

Lemma failed_registration_blocks_name_witness :
  exists commands',
    command not_a_number not_a_number "twice" twice ["greet"]
    = Rejected commands' (Fails (more_than_one_keyword_only "a" "b"))
    /\ forall func', exists msg,
         command not_a_number not_a_number "twice" func' commands'
         = Rejected commands' (FailsValueError msg).
Proof.
  apply (failed_registration_blocks_name not_a_number not_a_number
           "twice" twice ["greet"]); reflexivity.
Defined.

Lemma command_names_stay_distinct_witness :
  NoDup (commands_after (command not_a_number not_a_number "wave" wave ["greet"]))
  /\ commands_after (postback not_a_number not_a_number "wave" wave ["greet"])
     = ["greet"].
Proof.
  apply (command_names_stay_distinct not_a_number not_a_number "wave" wave ["greet"]).
  apply NoDup_singleton.
Defined.

End RouterExamples.
